(** * agents-link: the link/copy reconciliation engine of [src/index.js]

    A shallow embedding of [createLink], [updateManagedCopy], [removeLink],
    [init], [sync] and [clean] over an explicit model of the part of Node's
    [fs] and [path] modules that those functions call.

    Conventions.
    - A path is the list of the components of an absolute, normalised path:
      [/w/.cursor/rules] is [["w"; ".cursor"; "rules"]].  On such paths
      [path.resolve p] is the identity and [path.join cwd rel] is [cwd ++ rel].
    - The file system is a finite map from paths to entries (file, symbolic
      link, directory) with POSIX behaviour: [access], [open] and [stat]
      follow the links at the end of a path, [lstat], [readlink], [symlink]
      and [unlink] do not.  The text of a link is resolved as [path.resolve]
      does, component by component on the text, and a link in the middle of
      a path (a symbolic link to a directory used as a directory) is not
      followed.  This agrees with the kernel where every directory above a
      path that is looked up is a directory entry and no text goes up after
      it has gone down ([real_path], [normal], [chain_ok] below); statements
      that depend on it carry these conditions as hypotheses.
    - Permissions are one bit per capability: a file can be read, a file can
      be written, entries can be added to or removed from a directory; the
      platform allows symbolic links or not.
    - File contents are texts ([string]); the UTF-8 decoding and encoding done
      by [readFileSync] and [writeFileSync] is taken to be the identity.
    - A JavaScript exception is a value [Err e]; [try]/[catch] is a [match].
    - Every [console.log]/[console.error] line of a per-target operation is
      returned as a constructor of [line]. *)

From stdpp Require Import gmap strings.

(** ** Paths ([path] module) *)

Module Path.

Abbreviation path := (list string).

(** One segment of a link text: [..] or a name. *)
Inductive seg := Up | Down (name : string).

(** The text stored in a symbolic link: absolute or relative, then its
    segments ([.] and empty segments are dropped by [path.resolve], so they
    are not represented). *)
Record linktext := LinkText { is_abs : bool; segs : list seg }.

#[global] Instance seg_eq_dec : EqDecision seg.
Proof. solve_decision. Defined.

#[global] Instance linktext_eq_dec : EqDecision linktext.
Proof. solve_decision. Defined.

(** [path.dirname]: the root is its own parent. *)
Definition dirname (p : path) : path := removelast p.

Definition step (p : path) (s : seg) : path :=
  match s with
  | Up => removelast p
  | Down n => p ++ [n]
  end.

(** [path.resolve(dir, text)]: an absolute text starts from the root, a
    relative one from [dir]; [..] at the root stays at the root. *)
Definition resolve (dir : path) (t : linktext) : path :=
  fold_left step (segs t) (if is_abs t then [] else dir).

(** Strip the longest common prefix of two paths. *)
Fixpoint strip_common (from to : path) : path * path :=
  match from, to with
  | a :: from', b :: to' =>
      if decide (a = b) then strip_common from' to' else (from, to)
  | _, _ => (from, to)
  end.

(** [path.relative(from, to)]: one [..] for every component of [from] below
    the common prefix, then the rest of [to]. *)
Definition relative (from to : path) : linktext :=
  let '(f, t) := strip_common from to in
  LinkText false (replicate (length f) Up ++ map Down t).

(** [path.join(cwd, rel)] for a relative, normalised [rel]. *)
Definition join (cwd rel : path) : path := cwd ++ rel.

End Path.

Import Path.

(** ** The file system ([fs] module) *)

Module Fs.

Inductive errno :=
  ENOENT | EEXIST | EACCES | EPERM | EISDIR | ENOTDIR | EINVAL | ELOOP.

#[global] Instance errno_eq_dec : EqDecision errno.
Proof. solve_decision. Defined.

(** What a call returns: a value, or the exception it throws. *)
Inductive result (A : Type) := Ok (a : A) | Err (e : errno).
Arguments Ok {A} a.
Arguments Err {A} e.

(** A directory entry.  [readable]/[writable] are the permission bits the
    calling process has on a file; a directory's [dwritable] is the right
    to add and remove entries in it. *)
Inductive node :=
| File (content : string) (readable writable : bool)
| Symlink (text : linktext)
| Dir (dwritable : bool).

#[global] Instance node_eq_dec : EqDecision node.
Proof. solve_decision. Defined.

(** The state: the entries by path, and whether the platform lets this
    process create symbolic links at all. *)
Record fs := mkFs {
  entries : gmap path node;
  symlinks_ok : bool
}.

Definition with_entries (s : fs) (m : gmap path node) : fs :=
  mkFs m (symlinks_ok s).

Definition is_symlink_node (o : option node) : bool :=
  match o with Some (Symlink _) => true | _ => false end.

(** The number of symbolic links a path lookup follows before it gives up
    with [ELOOP] (Linux: 40). *)
Definition MAXSYMLINKS : nat := 40.

(** Follow the symbolic links at the end of a path.  [Some (q, o)]: the
    chain ends at [q], which has the entry [o] (not a link) or, with
    [o = None], no entry.  [None]: too many links.  The text of a link is
    resolved on the text ([resolve]); the kernel does the same where the
    directories above are real and the text is normal, see [chain_ok]. *)
Fixpoint walk (fuel : nat) (m : gmap path node) (p : path)
  : option (path * option node) :=
  match m !! p with
  | Some (Symlink t) =>
      match fuel with
      | 0 => None
      | S fuel' => walk fuel' m (resolve (dirname p) t)
      end
  | o => Some (p, o)
  end.

(** [fs.lstatSync(p)]: the entry itself, links not followed. *)
Definition lstatSync (s : fs) (p : path) : result node :=
  match entries s !! p with
  | Some n => Ok n
  | None => Err ENOENT
  end.

(** [fs.accessSync(p, F_OK)]: access(2) follows links. *)
Definition accessSync (s : fs) (p : path) : result unit :=
  match walk MAXSYMLINKS (entries s) p with
  | Some (_, Some _) => Ok tt
  | Some (_, None) => Err ENOENT
  | None => Err ELOOP
  end.

(** [fs.readFileSync(p, "utf8")]: follows links. *)
Definition readFileSync (s : fs) (p : path) : result string :=
  match walk MAXSYMLINKS (entries s) p with
  | Some (_, Some (File c r _)) => if r then Ok c else Err EACCES
  | Some (_, Some (Dir _)) => Err EISDIR
  | Some (_, Some (Symlink _)) => Err ELOOP
  | Some (_, None) => Err ENOENT
  | None => Err ELOOP
  end.

(** [fs.readlinkSync(p)]: the text of the link, whether or not it leads
    anywhere. *)
Definition readlinkSync (s : fs) (p : path) : result linktext :=
  match entries s !! p with
  | Some (Symlink t) => Ok t
  | Some _ => Err EINVAL
  | None => Err ENOENT
  end.

(** An entry can be added to or removed from the directory of [p]. *)
Definition parent_check (s : fs) (p : path) : result unit :=
  match entries s !! dirname p with
  | Some (Dir true) => Ok tt
  | Some (Dir false) => Err EACCES
  | Some _ => Err ENOTDIR
  | None => Err ENOENT
  end.

(** [fs.writeFileSync(p, data, "utf8")]: open(2) with O_CREAT|O_TRUNC
    follows links; at the end of the chain it truncates a writable file or
    creates a new one (readable and writable by its creator). *)
Definition writeFileSync (s : fs) (p : path) (data : string) : result fs :=
  match walk MAXSYMLINKS (entries s) p with
  | Some (q, Some (File _ r w)) =>
      if w then Ok (with_entries s (<[q := File data r w]> (entries s)))
      else Err EACCES
  | Some (_, Some (Dir _)) => Err EISDIR
  | Some (_, Some (Symlink _)) => Err ELOOP
  | Some (q, None) =>
      match parent_check s q with
      | Ok _ => Ok (with_entries s (<[q := File data true true]> (entries s)))
      | Err e => Err e
      end
  | None => Err ELOOP
  end.

(** [fs.symlinkSync(text, p, "file")]: symlink(2) does not follow [p]; an
    empty text is refused. *)
Definition symlinkSync (s : fs) (text : linktext) (p : path) : result fs :=
  if negb (symlinks_ok s) then Err EPERM
  else if decide (text = LinkText false []) then Err ENOENT
  else match entries s !! p with
       | Some _ => Err EEXIST
       | None =>
           match parent_check s p with
           | Ok _ => Ok (with_entries s (<[p := Symlink text]> (entries s)))
           | Err e => Err e
           end
       end.

(** [fs.unlinkSync(p)]: removes the entry itself, never a directory. *)
Definition unlinkSync (s : fs) (p : path) : result fs :=
  match entries s !! p with
  | None => Err ENOENT
  | Some (Dir _) => Err EISDIR
  | Some _ =>
      match parent_check s p with
      | Ok _ => Ok (with_entries s (delete p (entries s)))
      | Err e => Err e
      end
  end.

(** [fs.mkdirSync(dir, {recursive: true})], from the root down: an existing
    directory is kept, a missing one is created in a writable parent,
    anything else in the way is an error (a symbolic link to a directory
    in the way, which the real call follows, is outside the model, see
    [links_above]).  [pre] is the part of the path already known to be a
    directory. *)
Fixpoint mkdirs (m : gmap path node) (pre : path) (pw : bool) (rest : path)
  : result (gmap path node) :=
  match rest with
  | [] => Ok m
  | c :: rest' =>
      let d := pre ++ [c] in
      match m !! d with
      | Some (Dir w) => mkdirs m d w rest'
      | Some (File _ _ _) => Err ENOTDIR
      | Some (Symlink _) => Err ENOTDIR
      | None =>
          if pw then mkdirs (<[d := Dir true]> m) d true rest'
          else Err EACCES
      end
  end.

Definition mkdirSync (s : fs) (dir : path) : result fs :=
  match entries s !! [] with
  | Some (Dir w) =>
      match mkdirs (entries s) [] w dir with
      | Ok m => Ok (with_entries s m)
      | Err e => Err e
      end
  | _ => Err ENOENT
  end.

End Fs.

Import Fs.

(** ** Texts *)

Module Text.

(** [s.startsWith(m)]. *)
Fixpoint starts_with (s m : string) {struct m} : bool :=
  match m, s with
  | EmptyString, _ => true
  | String a m', String b s' => if decide (a = b) then starts_with s' m' else false
  | String _ _, EmptyString => false
  end.

(** [s.includes(m)]: [m] occurs somewhere in [s]. *)
Fixpoint includes (s m : string) : bool :=
  starts_with s m ||
  match s with
  | EmptyString => false
  | String _ s' => includes s' m
  end.

(** [s.slice(n)]: [s] without its first [n] characters. *)
Fixpoint slice (n : nat) (s : string) : string :=
  match n, s with
  | 0, _ => s
  | S n', String _ s' => slice n' s'
  | S _, EmptyString => EmptyString
  end.

End Text.

Import Text.

(** ** The engine ([src/index.js]) *)

Definition SOURCE_FILE : path := ["AGENTS.md"].

Definition MANAGED_MARKER : string :=
  "agents-link:managed:e3b0c44298fc1c149afbf4c8996fb92427ae41e4649b934ca495991b7852b855".

Definition TARGET_FILES : list path :=
  [ ["CLAUDE.md"];
    ["GEMINI.md"];
    [".cursor"; "rules"; "AGENTS.md"];
    [".cursorrules"];
    [".windsurf"; "rules"; "AGENTS.md"];
    [".github"; "copilot-instructions.md"];
    [".rules"] ].

Definition generateManagedHeader : string :=
  "<!-- " +:+ MANAGED_MARKER +:+ " -->
<!-- This file is auto-managed by agents-link. Do not edit manually. -->
<!-- Source: AGENTS.md -->

".

Definition generateDefaultAgentsMd : string :=
  "# AGENTS.md

A single source of truth for agents (and busy humans) working on this project.

## Project Overview

Describe your project's purpose, goals, and key information here.

## Development Guidelines

Add your development guidelines, coding standards, and best practices here.

## Testing

Describe your testing approach and requirements here.

## Contributing

Add contribution guidelines and workflow information here.

## Additional Notes

Add any other important information for agents and developers working on this project.
".

(** The console line a per-target operation prints. *)
Inductive line :=
| LinkExists            (* ✓ (symlink already exists) *)
| LinkElsewhere         (* ⚠ (symlink exists but points elsewhere) *)
| CopyExists            (* ✓ (managed copy already exists) *)
| NotManagedSkipping    (* ⚠ (file exists, not managed - skipping) *)
| LinkCreated           (* ✓ (symlink created) *)
| CopyCreated           (* ✓ (managed copy created) *)
| Failed (e : errno)    (* ✗ (failed: ...) *)
| Unexpected (e : errno) (* ✗ (unexpected error: ...) *)
| DoesNotExist          (* - (does not exist) *)
| LinkNoSync            (* - (symlink, no sync needed) *)
| NotManagedSkip        (* ⚠ (not managed, skipping) *)
| Synced                (* ✓ (synced) *)
| LinkRemoved           (* ✓ (symlink removed) *)
| CopyRemoved.          (* ✓ (managed copy removed) *)

#[global] Instance line_eq_dec : EqDecision line.
Proof. solve_decision. Defined.

Definition isManagedFile (s : fs) (filePath : path) : bool :=
  match readFileSync s filePath with
  | Ok content => includes content MANAGED_MARKER
  | Err _ => false
  end.

Definition isSymlink (s : fs) (filePath : path) : bool :=
  match lstatSync s filePath with
  | Ok stats => is_symlink_node (Some stats)
  | Err _ => false
  end.

Definition fileExists (s : fs) (filePath : path) : bool :=
  match accessSync s filePath with
  | Ok _ => true
  | Err _ => false
  end.

Definition ensureDir (s : fs) (filePath : path) : result fs :=
  let dir := dirname filePath in
  if negb (fileExists s dir) then mkdirSync s dir else Ok s.

(** Lines 148-171 of [createLink]: the creation attempt, reached when the
    target does not exist and after the broken-link branch.  An exception of
    [ensureDir] goes to the outer [catch] of [createLink]. *)
Definition createLink_create (absoluteSource absoluteTarget : path) (s : fs)
  : bool * line * fs :=
  match ensureDir s absoluteTarget with
  | Err e => (false, Unexpected e, s)
  | Ok s1 =>
      let relativeSource := relative (dirname absoluteTarget) absoluteSource in
      match symlinkSync s1 relativeSource absoluteTarget with
      | Ok s2 => (true, LinkCreated, s2)
      | Err _ =>
          match readFileSync s1 absoluteSource with
          | Err e => (false, Failed e, s1)
          | Ok sourceContent =>
              let managedContent := generateManagedHeader +:+ sourceContent in
              match writeFileSync s1 absoluteTarget managedContent with
              | Ok s2 => (true, CopyCreated, s2)
              | Err e => (false, Failed e, s1)
              end
          end
      end
  end.

Definition createLink (sourcePath targetPath : path) (s : fs)
  : bool * line * fs :=
  let absoluteSource := sourcePath in
  let absoluteTarget := targetPath in
  if fileExists s absoluteTarget then
    if isSymlink s absoluteTarget then
      match readlinkSync s absoluteTarget with
      | Ok linkTarget =>
          let resolvedLink := resolve (dirname absoluteTarget) linkTarget in
          if decide (resolvedLink = absoluteSource)
          then (true, LinkExists, s)
          else (true, LinkElsewhere, s)
      | Err _ =>
          let s' := match unlinkSync s absoluteTarget with
                    | Ok s' => s'
                    | Err _ => s
                    end in
          createLink_create absoluteSource absoluteTarget s'
      end
    else if isManagedFile s absoluteTarget then (true, CopyExists, s)
    else (true, NotManagedSkipping, s)
  else createLink_create absoluteSource absoluteTarget s.

Definition updateManagedCopy (sourcePath targetPath : path) (s : fs)
  : line * fs :=
  let absoluteSource := sourcePath in
  let absoluteTarget := targetPath in
  if negb (fileExists s absoluteTarget) then (DoesNotExist, s)
  else if isSymlink s absoluteTarget then (LinkNoSync, s)
  else if negb (isManagedFile s absoluteTarget) then (NotManagedSkip, s)
  else
    match readFileSync s absoluteSource with
    | Err e => (Failed e, s)
    | Ok sourceContent =>
        let managedContent := generateManagedHeader +:+ sourceContent in
        match writeFileSync s absoluteTarget managedContent with
        | Ok s' => (Synced, s')
        | Err e => (Failed e, s)
        end
    end.

Definition removeLink (targetPath : path) (s : fs) : line * fs :=
  let absoluteTarget := targetPath in
  if negb (fileExists s absoluteTarget) then (DoesNotExist, s)
  else if isSymlink s absoluteTarget then
    match unlinkSync s absoluteTarget with
    | Ok s' => (LinkRemoved, s')
    | Err e => (Failed e, s)
    end
  else if isManagedFile s absoluteTarget then
    match unlinkSync s absoluteTarget with
    | Ok s' => (CopyRemoved, s')
    | Err e => (Failed e, s)
    end
  else (NotManagedSkip, s).

(** What a batch operation throws to the driver. *)
Inductive thrown :=
| SourceNotCreated (e : errno) (sourcePath : path)  (* code EIO, init *)
| TargetsFailed (failures : list path)              (* code EIO, init *)
| SourceNotFound (sourcePath : path).               (* code ENOENT, sync *)

Inductive exit := Done | Throws (t : thrown).

#[global] Instance thrown_eq_dec : EqDecision thrown.
Proof. solve_decision. Defined.

#[global] Instance exit_eq_dec : EqDecision exit.
Proof. solve_decision. Defined.

(** The [for] loop of [init] (lines 271-283): [failures] and the console
    lines [out] grow at their ends.  [createLink] catches every exception
    itself, so the [catch] of the loop body has nothing to catch. *)
Fixpoint init_loop (sourcePath cwd : path) (targets : list path)
    (failures : list path) (out : list line) (s : fs)
  : list path * list line * fs :=
  match targets with
  | [] => (failures, out, s)
  | targetFile :: rest =>
      let '(success, l, s') := createLink sourcePath (join cwd targetFile) s in
      let failures' := if negb success then failures ++ [targetFile] else failures in
      init_loop sourcePath cwd rest failures' (out ++ [l]) s'
  end.

(** Lines 252-267 of [init]: the source is created from the template when
    it does not exist. *)
Definition init_source (sourcePath : path) (s : fs) : result fs :=
  if negb (fileExists s sourcePath)
  then writeFileSync s sourcePath generateDefaultAgentsMd
  else Ok s.

(** [init], with the list of targets as a parameter. *)
Definition init_with (targets : list path) (cwd : path) (s : fs)
  : exit * list line * fs :=
  let sourcePath := join cwd SOURCE_FILE in
  match init_source sourcePath s with
  | Err e => (Throws (SourceNotCreated e sourcePath), [], s)
  | Ok s0 =>
      let '(failures, out, s') := init_loop sourcePath cwd targets [] [] s0 in
      if decide (0 < length failures)
      then (Throws (TargetsFailed failures), out, s')
      else (Done, out, s')
  end.

Definition init : path -> fs -> exit * list line * fs := init_with TARGET_FILES.

Fixpoint sync_loop (sourcePath cwd : path) (targets : list path)
    (out : list line) (s : fs) : list line * fs :=
  match targets with
  | [] => (out, s)
  | targetFile :: rest =>
      let '(l, s') := updateManagedCopy sourcePath (join cwd targetFile) s in
      sync_loop sourcePath cwd rest (out ++ [l]) s'
  end.

Definition sync_with (targets : list path) (cwd : path) (s : fs)
  : exit * list line * fs :=
  let sourcePath := join cwd SOURCE_FILE in
  if negb (fileExists s sourcePath)
  then (Throws (SourceNotFound sourcePath), [], s)
  else let '(out, s') := sync_loop sourcePath cwd targets [] s in
       (Done, out, s').

Definition sync : path -> fs -> exit * list line * fs := sync_with TARGET_FILES.

Fixpoint clean_loop (cwd : path) (targets : list path)
    (out : list line) (s : fs) : list line * fs :=
  match targets with
  | [] => (out, s)
  | targetFile :: rest =>
      let '(l, s') := removeLink (join cwd targetFile) s in
      clean_loop cwd rest (out ++ [l]) s'
  end.

Definition clean (cwd : path) (s : fs) : exit * list line * fs :=
  let '(out, s') := clean_loop cwd TARGET_FILES [] s in (Done, out, s').

(** The status [printTargets] shows for one target. *)
Inductive status := StSymlink | StManaged | StExistsNotManaged | StNotCreated.

#[global] Instance status_eq_dec : EqDecision status.
Proof. solve_decision. Defined.

Definition targetStatus (s : fs) (absolutePath : path) : status :=
  let exists_ := fileExists s absolutePath in
  let isLink := isSymlink s absolutePath in
  let isManaged := negb isLink && exists_ && isManagedFile s absolutePath in
  if isLink then StSymlink
  else if isManaged then StManaged
  else if exists_ then StExistsNotManaged
  else StNotCreated.

(** ** Notions used in the statements *)

(** [stat(2)] succeeds on the path: following the links at its end leads to
    an entry. *)
Definition resolves (s : fs) (p : path) : bool :=
  match walk MAXSYMLINKS (entries s) p with
  | Some (_, Some _) => true
  | _ => false
  end.

(** A broken link: the entry is a symbolic link that leads nowhere. *)
Definition dangling (s : fs) (p : path) : Prop :=
  is_symlink_node (entries s !! p) = true ∧ resolves s p = false.

(** The specification's ForeignFile: an entry that is not a symbolic link
    and whose content cannot be read or does not contain the marker. *)
Definition foreign (s : fs) (p : path) : Prop :=
  match entries s !! p with
  | Some (File c r _) => r = false ∨ includes c MANAGED_MARKER = false
  | Some (Dir _) => True
  | _ => False
  end.

(** Stripping the Managed Header: the content without its first
    [|header|] characters. *)
Definition strip_header (content : string) : string :=
  slice (String.length generateManagedHeader) content.

(** [m'] has the entries of [m] and, where [m] has none, maybe new
    directories. *)
Definition adds_dirs (m m' : gmap path node) : Prop :=
  ∀ p, m' !! p = m !! p ∨ (m !! p = None ∧ ∃ w, m' !! p = Some (Dir w)).

(** The batch as the specification describes it: every target is handed to
    [createLink] in turn, whatever happened to the ones before it, and its
    outcome (target, success, printed line) is recorded. *)
Fixpoint run_targets (sourcePath cwd : path) (targets : list path) (s : fs)
  : list (path * bool * line) * fs :=
  match targets with
  | [] => ([], s)
  | t :: rest =>
      let '(ok, l, s1) := createLink sourcePath (join cwd t) s in
      let '(rs, s2) := run_targets sourcePath cwd rest s1 in
      ((t, ok, l) :: rs, s2)
  end.

(** The targets whose outcome is a failure. *)
Definition failed_targets (rs : list (path * bool * line)) : list path :=
  map (λ r, r.1.1) (filter (λ r, r.1.2 = false) rs).

(** [printTargets]: the status line of every target; the file system is
    only inspected. *)
Definition printTargets (cwd : path) (s : fs) : list (path * status) :=
  map (λ targetFile, (targetFile, targetStatus s (join cwd targetFile)))
      TARGET_FILES.

(** A readable file whose content contains the marker. *)
Definition marked_file (o : option node) : Prop :=
  ∃ c w, o = Some (File c true w) ∧ includes c MANAGED_MARKER = true.

(** From [m] to [m'] nothing happened but the rewriting of marked files
    at the paths [ts]: they are still marked files, with the same
    permissions. *)
Definition rewrites_marked (ts : list path) (m m' : gmap path node) : Prop :=
  ∀ p, m' !! p = m !! p ∨
       (p ∈ ts ∧ ∃ c c' w,
          m !! p = Some (File c true w) ∧ includes c MANAGED_MARKER = true ∧
          m' !! p = Some (File c' true w) ∧ includes c' MANAGED_MARKER = true).

(** From [m] to [m'] nothing happened but the removal of symbolic links
    and marked files at the paths [ts]. *)
Definition removes_owned (ts : list path) (m m' : gmap path node) : Prop :=
  ∀ p, m' !! p = m !! p ∨
       (p ∈ ts ∧ m' !! p = None ∧
        (is_symlink_node (m !! p) = true ∨ marked_file (m !! p))).

(** ** Where the model of path lookup agrees with the kernel *)

Definition is_down (x : seg) : bool :=
  match x with Down _ => true | Up => false end.

(** A link text that never goes up after it has gone down ([../../a/b],
    as [path.relative] makes them): resolving it component by component on
    the text is what the kernel does, provided the directories are real. *)
Fixpoint normal_segs (l : list seg) : bool :=
  match l with
  | [] => true
  | Up :: l' => normal_segs l'
  | Down _ :: l' => forallb is_down l'
  end.

Definition normal (t : linktext) : bool := normal_segs (segs t).

(** The paths strictly above [p], from the root down. *)
Fixpoint ancestors (p : path) : list path :=
  match p with
  | [] => []
  | c :: p' => [] :: map (cons c) (ancestors p')
  end.

Definition is_dir_node (o : option node) : bool :=
  match o with Some (Dir _) => true | _ => false end.

(** Every path above [p] is a directory entry. *)
Definition real_path (s : fs) (p : path) : bool :=
  forallb (λ a, is_dir_node (entries s !! a)) (ancestors p).

(** Some path above [p] is a symbolic link. *)
Definition links_above (s : fs) (p : path) : bool :=
  existsb (λ a, is_symlink_node (entries s !! a)) (ancestors p).

(** No target of the list lies below a symbolic link. *)
Definition targets_below_no_link (s : fs) (cwd : path) (targets : list path)
  : bool :=
  forallb (λ t, negb (links_above s (join cwd t))) targets.

(** Along the chain of links that starts at [p], every path has real
    directories above it and every text is normal. *)
Fixpoint chain_ok (fuel : nat) (s : fs) (p : path) : bool :=
  real_path s p &&
  match entries s !! p with
  | Some (Symlink t) =>
      normal t &&
      match fuel with
      | 0 => false
      | S fuel' => chain_ok fuel' s (resolve (dirname p) t)
      end
  | _ => true
  end.

(** ** Example states *)

Definition ex_cwd : path := ["w"].
Definition ex_S : path := ["w"; "AGENTS.md"].
Definition ex_T : path := ["w"; "CLAUDE.md"].

(** [/w] without a source. *)
Definition ex_empty : gmap path node :=
  <[ ["w"] := Dir true ]> (<[ [] := Dir true ]> ∅).

(** [/w/AGENTS.md] contains [Hello]. *)
Definition ex_base : gmap path node :=
  <[ ex_S := File "Hello" true true ]> ex_empty.

Definition ex_fresh : fs := mkFs ex_base true.
Definition ex_nosymlink : fs := mkFs ex_base false.
Definition ex_nosource : fs := mkFs ex_empty true.

(** [/w/CLAUDE.md] is a file of the user. *)
Definition ex_foreign : fs :=
  mkFs (<[ ex_T := File "custom rules" true true ]> ex_base) true.

(** [/w/CLAUDE.md -> ../shared/gone.md], which does not exist. *)
Definition ex_gone_text : linktext :=
  LinkText false [Up; Down "shared"; Down "gone.md"].

Definition ex_dangling : fs :=
  mkFs (<[ ex_T := Symlink ex_gone_text ]>
        (<[ ["shared"] := Dir true ]> ex_base)) true.

(** [/w/CLAUDE.md -> notes.md], a file that contains the marker. *)
Definition ex_elsewhere : fs :=
  mkFs (<[ ex_T := Symlink (LinkText false [Down "notes.md"]) ]>
        (<[ ["w"; "notes.md"] :=
              File (generateManagedHeader +:+ "notes") true true ]> ex_base))
       true.

(** [/w/CLAUDE.md -> AGENTS.md] in a directory that cannot be changed. *)
Definition ex_locked_link : fs :=
  mkFs (<[ ex_T := Symlink (LinkText false [Down "AGENTS.md"]) ]>
        (<[ ["w"] := Dir false ]> ex_base)) true.

(** [/w/CLAUDE.md -> ../nowhere/gone.md]: not even the directory exists. *)
Definition ex_nowhere_text : linktext :=
  LinkText false [Up; Down "nowhere"; Down "gone.md"].

Definition ex_nowhere : fs :=
  mkFs (<[ ex_T := Symlink ex_nowhere_text ]> ex_base) true.

(** [/w/CLAUDE.md] is a managed copy of an older source. *)
Definition ex_stale : fs :=
  mkFs (<[ ex_T := File (generateManagedHeader +:+ "Old") true true ]> ex_base)
       true.

(** The broken link after [createLink] has written the copy through it,
    and the same after the user has changed the source to [World]. *)
Definition ex_dangling_copied : fs := (createLink ex_S ex_T ex_dangling).2.

Definition ex_dangling_edited : fs :=
  match writeFileSync ex_dangling_copied ex_S "World" with
  | Ok s => s
  | Err _ => ex_dangling_copied
  end.

(** No symbolic links, a directory that cannot be changed, and a file of
    the user at [/w/CLAUDE.md]. *)
Definition ex_locked : fs :=
  mkFs (<[ ex_T := File "custom rules" true true ]>
        (<[ ["w"] := Dir false ]> ex_base)) false.


(** * Properties *)

(** ** Paths *)

Section PathFacts.

Lemma strip_common_spec (from to : path) :
  ∃ c, from = c ++ (strip_common from to).1 ∧ to = c ++ (strip_common from to).2.
Proof.
  revert to; induction from as [|a from IH]; intros to.
  - by exists [].
  - destruct to as [|b to]; [by exists []|].
    simpl. case_decide as Hab.
    + destruct (IH to) as (c & Hf & Ht). subst b.
      exists (a :: c). simpl. by rewrite <- Hf, <- Ht.
    + by exists [].
Qed.

Lemma climb (c f : path) :
  fold_left step (replicate (length f) Up) (c ++ f) = c.
Proof.
  induction f as [|x f IH] using rev_ind; simpl.
  - by rewrite app_nil_r.
  - rewrite length_app, Nat.add_comm. simpl.
    by rewrite app_assoc, removelast_last.
Qed.

Lemma descend (c t : path) : fold_left step (map Down t) c = c ++ t.
Proof.
  revert c; induction t as [|x t IH]; intros c; simpl.
  - by rewrite app_nil_r.
  - by rewrite IH, <- app_assoc.
Qed.

(** The text [path.relative] computes leads back to the path it was
    computed for. *)
Lemma resolve_relative (from to : path) :
  resolve from (relative from to) = to.
Proof.
  unfold resolve, relative.
  destruct (strip_common_spec from to) as (c & Hf & Ht).
  destruct (strip_common from to) as [f t]; simpl in *.
  rewrite fold_left_app, Hf, climb, descend. by symmetry.
Qed.

End PathFacts.

(** ** Following links *)

Section WalkFacts.

Implicit Types (m : gmap path node) (p q : path) (o : option node).

Lemma walk_plain n m p :
  is_symlink_node (m !! p) = false → walk n m p = Some (p, m !! p).
Proof. destruct n; simpl; by destruct (m !! p) as [[]|]. Qed.

Lemma walk_end n m p q o :
  walk n m p = Some (q, o) → o = m !! q ∧ is_symlink_node o = false.
Proof.
  revert p; induction n as [|n IH]; intros p; simpl;
    destruct (m !! p) as [[]|] eqn:E; intros H; simplify_eq;
    try (rewrite E; by split); eauto.
Qed.

(** Writing at the end of a chain is seen through the chain. *)
Lemma walk_insert_end n m p q o x :
  walk n m p = Some (q, o) → is_symlink_node (Some x) = false →
  walk n (<[q := x]> m) p = Some (q, Some x).
Proof.
  intros Hw Hx. revert p Hw; induction n as [|n IH]; intros p; simpl.
  - destruct (m !! p) as [[]|] eqn:E; intros H; simplify_eq;
      rewrite lookup_insert_eq; by destruct x.
  - destruct (m !! p) as [[]|] eqn:E; intros H; simplify_eq;
      try (rewrite lookup_insert_eq; by destruct x).
    destruct (walk_end _ _ _ _ _ H) as [-> Hq].
    rewrite lookup_insert_ne, E; [by apply IH|].
    intros ->. by rewrite E in Hq.
Qed.

(** Changing an entry that is not a link and not the end of a chain does
    not change the chain. *)
Lemma walk_insert_off n m p q q' o x :
  walk n m p = Some (q', o) → q ≠ q' → is_symlink_node (m !! q) = false →
  walk n (<[q := x]> m) p = Some (q', o).
Proof.
  intros Hw Hne Hq. revert p Hw; induction n as [|n IH]; intros p; simpl.
  - destruct (m !! p) as [[]|] eqn:E; intros H; simplify_eq;
      by rewrite lookup_insert_ne, E.
  - destruct (m !! p) as [[]|] eqn:E; intros H; simplify_eq;
      try by rewrite lookup_insert_ne, E.
    rewrite lookup_insert_ne, E; [by apply IH|].
    intros ->. by rewrite E in Hq.
Qed.


Lemma adds_dirs_refl m : adds_dirs m m.
Proof. intros p. by left. Qed.

Lemma adds_dirs_trans m1 m2 m3 :
  adds_dirs m1 m2 → adds_dirs m2 m3 → adds_dirs m1 m3.
Proof.
  intros H12 H23 p.
  destruct (H12 p) as [E|[E [w Hw]]], (H23 p) as [F|[F [w' Hw']]].
  - left. congruence.
  - right. split; [congruence|by exists w'].
  - right. split; [done|]. exists w. congruence.
  - congruence.
Qed.

Lemma adds_dirs_some m m' p x :
  adds_dirs m m' → m !! p = Some x → m' !! p = Some x.
Proof. intros H E. destruct (H p) as [->|[? _]]; congruence. Qed.

Lemma adds_dirs_walk_some n m m' p q x :
  adds_dirs m m' → walk n m p = Some (q, Some x) →
  walk n m' p = Some (q, Some x).
Proof.
  intros H. revert p; induction n as [|n IH]; intros p; simpl;
    destruct (m !! p) as [[]|] eqn:E; intros Hw; simplify_eq;
    rewrite (adds_dirs_some _ _ _ _ H E); eauto.
Qed.

(** A chain that does not resolve before directories are added still
    does not end at a file afterwards. *)
Lemma adds_dirs_walk_none n m m' p :
  adds_dirs m m' →
  match walk n m p with Some (_, Some _) => False | _ => True end →
  match walk n m' p with
  | Some (q, Some (File _ _ _)) => False
  | _ => True
  end.
Proof.
  intros H. revert p; induction n as [|n IH]; intros p; simpl.
  - destruct (m !! p) as [[]|] eqn:E; try done.
    + by rewrite (adds_dirs_some _ _ _ _ H E).
    + destruct (H p) as [->|[_ [w ->]]]; [by rewrite E|done].
  - destruct (m !! p) as [[]|] eqn:E; try done.
    + rewrite (adds_dirs_some _ _ _ _ H E). apply IH.
    + destruct (H p) as [->|[_ [w ->]]]; [by rewrite E|done].
Qed.

End WalkFacts.

(** ** Texts *)

Section TextFacts.

Lemma starts_with_app (s t m : string) :
  starts_with s m = true → starts_with (s +:+ t) m = true.
Proof.
  revert s; induction m as [|a m IH]; intros [|b s]; try done.
  change (String b s +:+ t) with (String b (s +:+ t)).
  change (starts_with (String b ?x) (String a m))
    with (if decide (a = b) then starts_with x m else false).
  destruct (decide (a = b)); [apply IH|done].
Qed.

Lemma includes_app_l (s t m : string) :
  includes s m = true → includes (s +:+ t) m = true.
Proof.
  induction s as [|b s IH].
  - destruct m; [|done]. intros _. by destruct t.
  - change (String b s +:+ t) with (String b (s +:+ t)).
    change (includes (String b ?x) m)
      with (starts_with (String b x) m || includes x m).
    intros [H|H]%orb_true_iff; apply orb_true_iff.
    + left. by apply (starts_with_app (String b s)).
    + right. by apply IH.
Qed.

Lemma slice_app (a b : string) : slice (String.length a) (a +:+ b) = b.
Proof. induction a as [|c a IH]; simpl; [by destruct b|done]. Qed.

Lemma header_has_marker :
  includes generateManagedHeader MANAGED_MARKER = true.
Proof. vm_compute. reflexivity. Qed.

(** Whatever follows the header, the marker is found. *)
Lemma managed_content_has_marker (sourceContent : string) :
  includes (generateManagedHeader +:+ sourceContent) MANAGED_MARKER = true.
Proof. apply includes_app_l, header_has_marker. Qed.

End TextFacts.

(** ** The primitives *)

Section FsFacts.

Implicit Types (s : fs) (m : gmap path node) (p q : path).

Lemma mkdirs_adds_dirs rest : ∀ m pre pw m',
  mkdirs m pre pw rest = Ok m' → adds_dirs m m'.
Proof.
  induction rest as [|c rest IH]; intros m pre pw m'; simpl.
  - intros [= <-]. apply adds_dirs_refl.
  - destruct (m !! (pre ++ [c])) as [[| |w]|] eqn:E; try done.
    + apply IH.
    + destruct pw; [|done]. intros H%IH.
      eapply adds_dirs_trans; [|exact H].
      intros p. destruct (decide (p = pre ++ [c])) as [->|Hne].
      * right. split; [done|]. exists true. by rewrite lookup_insert_eq.
      * left. by rewrite lookup_insert_ne.
Qed.


Lemma ensureDir_adds_dirs s p s1 :
  ensureDir s p = Ok s1 →
  adds_dirs (entries s) (entries s1) ∧ symlinks_ok s1 = symlinks_ok s.
Proof.
  unfold ensureDir, mkdirSync.
  destruct (fileExists s (dirname p)); simpl.
  - intros [= <-]. split; [apply adds_dirs_refl|done].
  - destruct (entries s !! []) as [[| |w]|]; try done.
    destruct (mkdirs _ _ _ _) as [m|] eqn:E; [|done].
    intros [= <-]. split; [by eapply mkdirs_adds_dirs|done].
Qed.


(** How the three probes classify a path, by its entry. *)

Lemma fileExists_walk s p :
  fileExists s p = true ↔ ∃ q x, walk MAXSYMLINKS (entries s) p = Some (q, Some x).
Proof.
  unfold fileExists, accessSync.
  destruct (walk _ _ _) as [[q [x|]]|]; split; try done; eauto.
  all: by intros (? & ? & ?).
Qed.

Lemma isSymlink_entry s p :
  isSymlink s p = is_symlink_node (entries s !! p).
Proof. unfold isSymlink, lstatSync. by destruct (entries s !! p). Qed.

Lemma fileExists_plain s p x :
  entries s !! p = Some x → is_symlink_node (Some x) = false →
  fileExists s p = true.
Proof.
  intros E H. apply fileExists_walk. exists p, x.
  rewrite walk_plain; by rewrite E.
Qed.

Lemma fileExists_absent s p : entries s !! p = None → fileExists s p = false.
Proof.
  intros E. unfold fileExists, accessSync.
  rewrite walk_plain; by rewrite E.
Qed.

Lemma readFileSync_file s p c r w :
  entries s !! p = Some (File c r w) →
  readFileSync s p = if r then Ok c else Err EACCES.
Proof.
  intros E. unfold readFileSync. rewrite walk_plain; by rewrite E.
Qed.

Lemma readFileSync_dir s p w :
  entries s !! p = Some (Dir w) → readFileSync s p = Err EISDIR.
Proof.
  intros E. unfold readFileSync. rewrite walk_plain; by rewrite E.
Qed.

(** The [catch] around [readlinkSync] in [createLink] (the "broken
    symlink" branch) is never entered: reading the text of a link does
    not depend on where the link leads. *)
Lemma readlinkSync_of_symlink s p :
  isSymlink s p = true → ∃ t, readlinkSync s p = Ok t.
Proof.
  rewrite isSymlink_entry. unfold readlinkSync.
  destruct (entries s !! p) as [[]|]; try done. eauto.
Qed.

End FsFacts.

(** ** The state inspection *)

Section Inspection.

Implicit Types (s : fs) (p S T : path).

Lemma fileExists_resolves s p : fileExists s p = resolves s p.
Proof.
  unfold fileExists, accessSync, resolves.
  by destruct (walk _ _ _) as [[q [x|]]|].
Qed.

Lemma foreign_probes s p :
  foreign s p →
  fileExists s p = true ∧ isSymlink s p = false ∧ isManagedFile s p = false.
Proof.
  unfold foreign. destruct (entries s !! p) as [[c r w| |w]|] eqn:E; try done.
  - intros H. split_and!.
    + by eapply fileExists_plain.
    + by rewrite isSymlink_entry, E.
    + unfold isManagedFile. rewrite (readFileSync_file _ _ _ _ _ E).
      destruct r; [|done]. by destruct H.
  - intros _. split_and!.
    + by eapply fileExists_plain.
    + by rewrite isSymlink_entry, E.
    + unfold isManagedFile. by rewrite (readFileSync_dir _ _ _ E).
Qed.

Lemma dangling_probes s p :
  dangling s p → fileExists s p = false ∧ isSymlink s p = true.
Proof.
  intros [Hl Hr]. by rewrite fileExists_resolves, isSymlink_entry.
Qed.

(** Every per-target operation takes a broken link for a missing target:
    [updateManagedCopy] and [removeLink] leave it and print "does not
    exist", [createLink] goes straight to the creation attempt. *)
Lemma dangling_seen_as_absent S T s :
  dangling s T →
  updateManagedCopy S T s = (DoesNotExist, s) ∧
  removeLink T s = (DoesNotExist, s) ∧
  createLink S T s = createLink_create S T s.
Proof.
  intros [He _]%dangling_probes.
  unfold updateManagedCopy, removeLink, createLink. by rewrite He.
Qed.

End Inspection.

(** ** Non-destruction *)

(** C1.  A target that exists, is not a symbolic link, and whose content
    does not contain the Managed Marker or cannot be read (the
    specification's ForeignFile) is left alone by [createLink],
    [updateManagedCopy] and [removeLink]: each of them returns the file
    system it was given, so the target is neither rewritten nor deleted. *)
Theorem foreign_target_untouched (S T : path) (s : fs) :
  foreign s T →
  createLink S T s = (true, NotManagedSkipping, s) ∧
  updateManagedCopy S T s = (NotManagedSkip, s) ∧
  removeLink T s = (NotManagedSkip, s).
Proof.
  intros (He & Hl & Hm)%foreign_probes.
  unfold createLink, updateManagedCopy, removeLink.
  by rewrite He, Hl, Hm.
Qed.

Lemma foreign_target_untouched_witness :
  foreign ex_foreign ex_T ∧
  createLink ex_S ex_T ex_foreign = (true, NotManagedSkipping, ex_foreign) ∧
  updateManagedCopy ex_S ex_T ex_foreign = (NotManagedSkip, ex_foreign) ∧
  removeLink ex_T ex_foreign = (NotManagedSkip, ex_foreign).
Proof.
  assert (H : foreign ex_foreign ex_T) by (vm_compute; by right).
  split; [exact H|]. exact (foreign_target_untouched ex_S ex_T ex_foreign H).
Defined.

(** ** Broken links *)

(** C3.  The existence probe follows links: on the broken link
    [/w/CLAUDE.md -> ../shared/gone.md] [isSymlink] answers yes but
    [fileExists] answers no, so [updateManagedCopy] and [removeLink] report
    "does not exist"; only [printTargets], which does not ask [fileExists]
    first, shows the target as a symbolic link. *)
Theorem dangling_link_classified_absent :
  dangling ex_dangling ex_T ∧
  isSymlink ex_dangling ex_T = true ∧
  fileExists ex_dangling ex_T = false ∧
  (updateManagedCopy ex_S ex_T ex_dangling).1 = DoesNotExist ∧
  (removeLink ex_T ex_dangling).1 = DoesNotExist ∧
  targetStatus ex_dangling ex_T = StSymlink.
Proof. by vm_compute. Qed.

(** C4.  [removeLink] on the broken link [/w/CLAUDE.md ->
    ../shared/gone.md] prints "does not exist" and removes nothing: the
    link entry is still there afterwards. *)
Theorem dangling_link_not_removed :
  removeLink ex_T ex_dangling = (DoesNotExist, ex_dangling) ∧
  entries (removeLink ex_T ex_dangling).2 !! ex_T = Some (Symlink ex_gone_text).
Proof. by vm_compute. Qed.

(** What [removeLink] does to a link that leads somewhere (along a chain
    on which path lookup is that of the kernel): the entry of the link goes
    and nothing else changes; when [unlinkSync] throws, the error is
    printed and the file system is as before. *)
Lemma removeLink_live_symlink (T : path) (s : fs) (t : linktext) :
  entries s !! T = Some (Symlink t) →
  chain_ok MAXSYMLINKS s T = true →
  resolves s T = true →
  match unlinkSync s T with
  | Ok s' =>
      removeLink T s = (LinkRemoved, s') ∧
      entries s' !! T = None ∧
      ∀ p, p ≠ T → entries s' !! p = entries s !! p
  | Err e => removeLink T s = (Failed e, s)
  end.
Proof.
  intros E _ Hr. unfold removeLink.
  rewrite fileExists_resolves, Hr, isSymlink_entry, E. simpl.
  unfold unlinkSync. rewrite E.
  destruct (parent_check s T); [|done]. simpl. split_and!; [done|..].
  - apply lookup_delete_eq.
  - intros p Hp. by apply lookup_delete_ne.
Qed.

Example removeLink_locked_link :
  removeLink ex_T ex_locked_link = (Failed EACCES, ex_locked_link).
Proof. by vm_compute. Qed.

(** ** Symlink precedence *)

(** C7.  A target that is a symbolic link leading to an existing entry
    (along a chain of normal link texts through real directories, so that
    following it is what the kernel does), and whose text resolves (from
    the directory of the target) to a path other than the source, makes
    [createLink] print "symlink exists but points elsewhere" and return the
    file system unchanged.  Whether the content behind the link contains
    the marker is never asked: [updateManagedCopy] stops at "symlink, no
    sync needed", also unchanged. *)
Theorem symlink_precedence (S T : path) (s : fs) (t : linktext) :
  entries s !! T = Some (Symlink t) →
  chain_ok MAXSYMLINKS s T = true →
  resolves s T = true →
  resolve (dirname T) t ≠ S →
  createLink S T s = (true, LinkElsewhere, s) ∧
  updateManagedCopy S T s = (LinkNoSync, s).
Proof.
  intros E _ Hr Hne. unfold createLink, updateManagedCopy, readlinkSync.
  rewrite fileExists_resolves, Hr, isSymlink_entry, E. simpl.
  by rewrite decide_False.
Qed.

Lemma symlink_precedence_witness :
  isManagedFile ex_elsewhere ex_T = true ∧
  createLink ex_S ex_T ex_elsewhere = (true, LinkElsewhere, ex_elsewhere) ∧
  updateManagedCopy ex_S ex_T ex_elsewhere = (LinkNoSync, ex_elsewhere).
Proof.
  split; [by vm_compute|].
  apply (symlink_precedence ex_S ex_T ex_elsewhere
           (LinkText false [Down "notes.md"])); by vm_compute.
Defined.

(** ** Missing source *)

(** C8.  When the source cannot be found, [sync] throws the not-found
    error at once: no target is visited (nothing is printed) and the file
    system is returned as it was, whatever the list of targets. *)
Theorem sync_source_missing (cwd : path) (s : fs) :
  resolves s (join cwd SOURCE_FILE) = false →
  sync cwd s = (Throws (SourceNotFound (join cwd SOURCE_FILE)), [], s) ∧
  ∀ targets,
    sync_with targets cwd s
    = (Throws (SourceNotFound (join cwd SOURCE_FILE)), [], s).
Proof.
  intros Hr. unfold sync, sync_with.
  by rewrite fileExists_resolves, Hr.
Qed.

Lemma sync_source_missing_witness :
  sync ex_cwd ex_nosource = (Throws (SourceNotFound ex_S), [], ex_nosource).
Proof.
  apply (sync_source_missing ex_cwd ex_nosource). by vm_compute.
Defined.

(** ** The creation attempt *)

Section Creation.

Implicit Types (s : fs) (m : gmap path node) (p q S T : path).

Lemma walk_link n m p t :
  m !! p = Some (Symlink t) →
  walk (S n) m p = walk n m (resolve (dirname p) t).
Proof. intros E. simpl. by rewrite E. Qed.

Lemma with_entries_id s : with_entries s (entries s) = s.
Proof. by destruct s. Qed.

(** [symlinkSync] refuses a path that has an entry, broken link or not. *)
Lemma symlinkSync_exists s text p x :
  entries s !! p = Some x → ∃ e, symlinkSync s text p = Err e.
Proof.
  intros E. unfold symlinkSync.
  destruct (negb _); [eauto|]. case_decide; [eauto|]. rewrite E. eauto.
Qed.

Lemma symlinkSync_ok s text p s' :
  symlinkSync s text p = Ok s' →
  entries s !! p = None ∧
  s' = with_entries s (<[p := Symlink text]> (entries s)).
Proof.
  unfold symlinkSync.
  destruct (negb _); [done|]. case_decide; [done|].
  destruct (entries s !! p); [done|].
  destruct (parent_check s p); [|done]. by intros [= <-].
Qed.

(** [writeFileSync] changes one entry, the one at the end of the chain,
    and never the entry of a link. *)
Lemma writeFileSync_ok s p data s' :
  writeFileSync s p data = Ok s' →
  ∃ q o r, walk MAXSYMLINKS (entries s) p = Some (q, o) ∧
           s' = with_entries s (<[q := File data r true]> (entries s)) ∧
           match o with
           | Some (File _ r' _) => r = r'
           | Some _ => False
           | None => r = true
           end.
Proof.
  unfold writeFileSync.
  destruct (walk _ _ _) as [[q [[c r w| |w]|]]|] eqn:W; try done.
  - destruct w; [|done]. intros [= <-]. by exists q, (Some (File c r true)), r.
  - destruct (parent_check s q); [|done]. intros [= <-]. by exists q, None, true.
Qed.

(** A broken link at the target survives [createLink]: the call never
    unlinks it and never puts a fresh symbolic link in its place. *)
Lemma createLink_keeps_dangling_link S T s t :
  entries s !! T = Some (Symlink t) → resolves s T = false →
  (createLink S T s).1.2 ≠ LinkCreated ∧
  entries (createLink S T s).2 !! T = Some (Symlink t).
Proof.
  intros E Hr. unfold createLink. rewrite fileExists_resolves, Hr.
  unfold createLink_create.
  destruct (ensureDir s T) as [s1|e] eqn:D; [|done].
  apply ensureDir_adds_dirs in D as [D _].
  pose proof (adds_dirs_some _ _ _ _ D E) as E1.
  destruct (symlinkSync_exists s1 (relative (dirname T) S) T _ E1) as [e ->].
  destruct (readFileSync s1 S) as [c|e']; [|done].
  destruct (writeFileSync s1 T _) as [s2|e'] eqn:Wr; [|done].
  apply writeFileSync_ok in Wr as (q & o & r & W & -> & Ho).
  split; [done|]. simpl.
  rewrite lookup_insert_ne; [done|]. intros ->.
  apply walk_end in W as [-> Hq]. by rewrite E1 in Hq.
Qed.

End Creation.

(** C2.  [createLink] on the broken link [/w/CLAUDE.md ->
    ../shared/gone.md] does not repair it: the stale link entry is kept,
    no symbolic link to the source is made, and the managed copy is written
    through the link to [/shared/gone.md].  When the directory the link
    leads into does not exist either, the call fails. *)
Theorem broken_link_not_repaired :
  dangling ex_dangling ex_T ∧
  (createLink ex_S ex_T ex_dangling).1 = (true, CopyCreated) ∧
  entries (createLink ex_S ex_T ex_dangling).2 !! ex_T
    = Some (Symlink ex_gone_text) ∧
  entries (createLink ex_S ex_T ex_dangling).2 !! ["shared"; "gone.md"]
    = Some (File (generateManagedHeader +:+ "Hello") true true) ∧
  dangling ex_nowhere ex_T ∧
  createLink ex_S ex_T ex_nowhere = (false, Failed ENOENT, ex_nowhere).
Proof. by vm_compute. Qed.

(** ** Idempotence *)

(** C5.  On the broken link [/w/CLAUDE.md -> ../shared/gone.md] the first
    [createLink] prints "managed copy created" and the second, with nothing
    changed in between, prints "symlink exists but points elsewhere". *)
Theorem createLink_twice_on_broken_link :
  (createLink ex_S ex_T ex_dangling).1 = (true, CopyCreated) ∧
  (createLink ex_S ex_T (createLink ex_S ex_T ex_dangling).2).1
    = (true, LinkElsewhere).
Proof. by vm_compute. Qed.


Example createLink_twice_fresh_link :
  (createLink ex_S ex_T ex_fresh).1 = (true, LinkCreated) ∧
  (createLink ex_S ex_T (createLink ex_S ex_T ex_fresh).2).1
    = (true, LinkExists).
Proof. by vm_compute. Qed.

Example createLink_twice_fresh_copy :
  (createLink ex_S ex_T ex_nosymlink).1 = (true, CopyCreated) ∧
  (createLink ex_S ex_T (createLink ex_S ex_T ex_nosymlink).2).1
    = (true, CopyExists).
Proof. by vm_compute. Qed.

(** ** Round trip *)

Section RoundTrip.

Implicit Types (s : fs) (p q S T : path) (c : string).

Lemma readFileSync_ok s p c :
  readFileSync s p = Ok c →
  ∃ q w, walk MAXSYMLINKS (entries s) p = Some (q, Some (File c true w)).
Proof.
  unfold readFileSync.
  destruct (walk _ _ _) as [[q [[c' r w| |w]|]]|]; try done.
  destruct r; [|done]. intros [= ->]. eauto.
Qed.

Lemma readFileSync_walk s p q c w :
  walk MAXSYMLINKS (entries s) p = Some (q, Some (File c true w)) →
  readFileSync s p = Ok c.
Proof. intros W. unfold readFileSync. by rewrite W. Qed.

(** After "managed copy created": the source can be read, reading the
    target gives the header followed by the source content, and the copy
    sits either at the target or behind a link that is still at the
    target. *)
Lemma createLink_copy_created S T s s1 :
  createLink S T s = (true, CopyCreated, s1) →
  ∃ c q,
    readFileSync s1 S = Ok c ∧
    walk MAXSYMLINKS (entries s1) T
      = Some (q, Some (File (generateManagedHeader +:+ c) true true)) ∧
    (q = T ∨ is_symlink_node (entries s1 !! T) = true).
Proof.
  unfold createLink.
  destruct (fileExists s T) eqn:He.
  { destruct (isSymlink s T) eqn:Hl.
    - destruct (readlinkSync_of_symlink _ _ Hl) as [t ->].
      by case_decide.
    - by destruct (isManagedFile s T). }
  unfold createLink_create.
  destruct (ensureDir s T) as [s0|e] eqn:D; [|done].
  apply ensureDir_adds_dirs in D as [D _].
  destruct (symlinkSync s0 _ T) as [?|e]; [done|].
  destruct (readFileSync s0 S) as [c|e'] eqn:R; [|done].
  destruct (writeFileSync s0 T _) as [s2|e'] eqn:Wr; [|done].
  intros [= <-]. exists c.
  apply writeFileSync_ok in Wr as (q & o & r & W & -> & Ho).
  exists q.
  (* the chain of the target did not end at a file before *)
  assert (o = None ∧ r = true) as [-> ->].
  { rewrite fileExists_resolves in He. unfold resolves in He.
    pose proof (adds_dirs_walk_none MAXSYMLINKS _ _ T D) as Hn.
    rewrite W in Hn.
    destruct o as [[]|]; try done.
    exfalso. apply Hn. by destruct (walk _ (entries s) T) as [[? []]|]. }
  pose proof (walk_end _ _ _ _ _ W) as [Hq _]. symmetry in Hq.
  cbn [entries with_entries]. split_and!.
  - apply readFileSync_ok in R as (qs & w & Ws).
    eapply readFileSync_walk. cbn [entries with_entries].
    apply walk_insert_off; [exact Ws| |by rewrite Hq].
    intros ->. apply walk_end in Ws as [Hs _]. congruence.
  - by apply (walk_insert_end _ _ _ _ None).
  - destruct (is_symlink_node (entries s0 !! T)) eqn:Hl.
    + right. rewrite lookup_insert_ne; [done|]. intros ->.
      by rewrite Hq in Hl.
    + left. rewrite walk_plain in W by done. by injection W as <- _.
Qed.

(** [updateManagedCopy] right after "managed copy created" leaves the file
    system as it is: the copy already holds the source content. *)
Lemma updateManagedCopy_after_copy S T s s1 :
  createLink S T s = (true, CopyCreated, s1) →
  (updateManagedCopy S T s1).2 = s1.
Proof.
  intros (c & q & R & W & Hq)%createLink_copy_created.
  unfold updateManagedCopy.
  assert (fileExists s1 T = true) as -> by (apply fileExists_walk; eauto).
  cbn [negb]. rewrite isSymlink_entry.
  destruct Hq as [-> | ->]; [|done].
  pose proof (walk_end _ _ _ _ _ W) as [E _]. symmetry in E.
  rewrite E. cbn [is_symlink_node].
  unfold isManagedFile. rewrite (readFileSync_walk _ _ _ _ _ W).
  rewrite managed_content_has_marker, R. cbn [negb].
  unfold writeFileSync. rewrite W. cbn [snd].
  by rewrite insert_id, with_entries_id.
Qed.

(** What [updateManagedCopy] writes into a managed copy, whatever the
    source contains by now. *)
Lemma updateManagedCopy_rewrites S T s c0 c :
  entries s !! T = Some (File c0 true true) →
  includes c0 MANAGED_MARKER = true →
  readFileSync s S = Ok c →
  ∃ s', updateManagedCopy S T s = (Synced, s') ∧
        entries s' !! T = Some (File (generateManagedHeader +:+ c) true true) ∧
        strip_header (generateManagedHeader +:+ c) = c.
Proof.
  intros E Hm R. unfold updateManagedCopy.
  rewrite (fileExists_plain _ _ _ E), isSymlink_entry, E by done.
  unfold isManagedFile. rewrite (readFileSync_file _ _ _ _ _ E), Hm, R.
  cbn [negb is_symlink_node]. unfold writeFileSync.
  rewrite walk_plain, E by (by rewrite E).
  eexists. split_and!; [done|apply lookup_insert_eq|apply slice_app].
Qed.

End RoundTrip.

(** ** Linking without a source *)



(** ** The batch *)

Section Batch.

Implicit Types (s : fs) (cwd src : path) (targets : list path).

Lemma failed_targets_cons t ok l rs :
  failed_targets ((t, ok, l) :: rs)
  = (if ok then [] else [t]) ++ failed_targets rs.
Proof.
  unfold failed_targets. rewrite filter_cons. simpl.
  case_decide; destruct ok; done.
Qed.

(** The loop of [init] computes what [run_targets] describes: no exit
    before the end of the list. *)
Lemma init_loop_run targets : ∀ src cwd failures out s,
  init_loop src cwd targets failures out s
  = (failures ++ failed_targets (run_targets src cwd targets s).1,
     out ++ map snd (run_targets src cwd targets s).1,
     (run_targets src cwd targets s).2).
Proof.
  induction targets as [|t targets IH]; intros src cwd failures out s; simpl.
  - by rewrite !app_nil_r.
  - destruct (createLink src (join cwd t) s) as [[ok l] s1].
    rewrite IH. destruct (run_targets src cwd targets s1) as [rs s2].
    cbn [fst snd map]. rewrite failed_targets_cons.
    destruct ok; cbn [negb]; by rewrite <- ?app_assoc.
Qed.

Lemma run_targets_all targets : ∀ src cwd s,
  map (λ r, r.1.1) (run_targets src cwd targets s).1 = targets.
Proof.
  induction targets as [|t targets IH]; intros src cwd s; simpl; [done|].
  destruct (createLink src (join cwd t) s) as [[ok l] s1].
  specialize (IH src cwd s1).
  destruct (run_targets src cwd targets s1) as [rs s2]. simpl in *.
  by rewrite IH.
Qed.

(** Every recorded outcome is what [createLink] returned for that target
    in some state. *)
Lemma run_targets_elem targets : ∀ src cwd s t ok l,
  (t, ok, l) ∈ (run_targets src cwd targets s).1 →
  ∃ s1 s2, createLink src (join cwd t) s1 = (ok, l, s2).
Proof.
  induction targets as [|t' targets IH]; intros src cwd s t ok l; simpl.
  - by intros ?%elem_of_nil.
  - destruct (createLink src (join cwd t') s) as [[ok' l'] s1] eqn:C.
    specialize (IH src cwd s1 t ok l).
    destruct (run_targets src cwd targets s1) as [rs s2]. simpl in *.
    intros [[= -> -> ->]|H]%elem_of_cons; eauto.
Qed.

(** [createLink] returns [false] exactly when it prints an error. *)
Lemma createLink_failure S T s ok l s' :
  createLink S T s = (ok, l, s') →
  ok = false ↔ ∃ e, l = Failed e ∨ l = Unexpected e.
Proof.
  assert (∀ s0, createLink_create S T s0 = (ok, l, s') →
                ok = false ↔ ∃ e, l = Failed e ∨ l = Unexpected e) as Hc.
  { intros s0. unfold createLink_create.
    destruct (ensureDir s0 T) as [s1|e].
    - destruct (symlinkSync s1 _ T).
      + intros [= <- <- <-]. split; [done|]. by intros [? [|]].
      + destruct (readFileSync s1 S).
        * destruct (writeFileSync s1 T _).
          -- intros [= <- <- <-]. split; [done|]. by intros [? [|]].
          -- intros [= <- <- <-]. split; [eauto|done].
        * intros [= <- <- <-]. split; [eauto|done].
    - intros [= <- <- <-]. split; [eauto|done]. }
  unfold createLink.
  destruct (fileExists s T); [|apply Hc].
  destruct (isSymlink s T).
  - destruct (readlinkSync s T); [|apply Hc].
    case_decide; intros [= <- <- <-]; (split; [done|]); by intros [? [|]].
  - destruct (isManagedFile s T); intros [= <- <- <-];
      (split; [done|]); by intros [? [|]].
Qed.

Lemma failed_targets_nonempty rs :
  failed_targets rs ≠ [] ↔ ∃ t l, (t, false, l) ∈ rs.
Proof.
  induction rs as [|[[t ok] l] rs IH].
  - split; [done|]. by intros (? & ? & ?%elem_of_nil).
  - rewrite failed_targets_cons. destruct ok; simpl.
    + rewrite IH. split.
      * intros (t' & l' & Hin). exists t', l'. apply elem_of_cons. by right.
      * intros (t' & l' & [[=]|Hin]%elem_of_cons). eauto.
    + split; [|done]. intros _. exists t, l. apply elem_of_cons. by left.
Qed.

End Batch.

(** C9.  Once the source is in place, [init] hands every target of the
    list, in order, to [createLink], whatever the outcome of the targets
    before it, and prints one line per target.  Only after the last target
    does it throw, and it throws exactly when some target's outcome is a
    failure, naming the failed targets; an outcome is a failure only when
    [createLink] printed an error, so a target that was skipped as foreign
    or unmanaged does not count. *)
Theorem init_processes_all_targets
    (targets : list path) (cwd : path) (s s0 : fs) :
  init_source (join cwd SOURCE_FILE) s = Ok s0 →
  ∃ rs s',
    run_targets (join cwd SOURCE_FILE) cwd targets s0 = (rs, s') ∧
    map (λ r, r.1.1) rs = targets ∧
    init_with targets cwd s
    = (if decide (failed_targets rs = []) then Done
       else Throws (TargetsFailed (failed_targets rs)),
       map snd rs, s') ∧
    (failed_targets rs ≠ [] ↔ ∃ t l, (t, false, l) ∈ rs) ∧
    (∀ t ok l, (t, ok, l) ∈ rs →
       ok = false ↔ ∃ e, l = Failed e ∨ l = Unexpected e).
Proof.
  intros Hs.
  exists (run_targets (join cwd SOURCE_FILE) cwd targets s0).1,
         (run_targets (join cwd SOURCE_FILE) cwd targets s0).2.
  split_and!.
  - by destruct (run_targets _ _ _ _).
  - apply run_targets_all.
  - unfold init_with. rewrite Hs, init_loop_run. simpl.
    destruct (failed_targets _) as [|f fl].
    + rewrite decide_False by (simpl; lia). by rewrite decide_True.
    + rewrite decide_True by (simpl; lia). by rewrite decide_False.
  - apply failed_targets_nonempty.
  - intros t ok l (s1 & s2 & Hc)%run_targets_elem.
    by eapply createLink_failure.
Qed.

Lemma init_processes_all_targets_witness :
  ∃ rs s',
    map (λ r, r.1.1) rs = TARGET_FILES ∧
    map snd rs
    = [NotManagedSkipping; Failed EACCES; Unexpected EACCES; Failed EACCES;
       Unexpected EACCES; Unexpected EACCES; Failed EACCES] ∧
    init ex_cwd ex_locked
    = (Throws (TargetsFailed (failed_targets rs)), map snd rs, s').
Proof.
  destruct (init_processes_all_targets TARGET_FILES ex_cwd ex_locked ex_locked)
    as (rs & s' & Hrun & Hall & Hinit & _).
  { vm_compute; reflexivity. }
  exists rs, s'.
  vm_compute in Hrun. injection Hrun as <- <-.
  split; [vm_compute; reflexivity|].
  split; [vm_compute; reflexivity|].
  unfold init. rewrite Hinit. vm_compute; reflexivity.
Defined.

(** ** The scenarios of the specification *)

(** Source [AGENTS.md] containing [Hello], target [CLAUDE.md] absent: the
    target becomes a link through which [Hello] is read. *)
Example scenario_link :
  (createLink ex_S ex_T ex_fresh).1 = (true, LinkCreated) ∧
  isSymlink (createLink ex_S ex_T ex_fresh).2 ex_T = true ∧
  readFileSync (createLink ex_S ex_T ex_fresh).2 ex_T = Ok "Hello".
Proof. by vm_compute. Qed.

(** The same where links cannot be created: the target becomes a file made
    of the header and [Hello], shown as managed. *)
Example scenario_copy :
  (createLink ex_S ex_T ex_nosymlink).1 = (true, CopyCreated) ∧
  readFileSync (createLink ex_S ex_T ex_nosymlink).2 ex_T
    = Ok (generateManagedHeader +:+ "Hello") ∧
  targetStatus (createLink ex_S ex_T ex_nosymlink).2 ex_T = StManaged.
Proof. by vm_compute. Qed.

(** A target with the content [custom rules]: skipped by [createLink], not
    removed by [removeLink], content as before. *)
Example scenario_foreign :
  (createLink ex_S ex_T ex_foreign).1 = (true, NotManagedSkipping) ∧
  (removeLink ex_T ex_foreign).1 = NotManagedSkip ∧
  readFileSync (removeLink ex_T (createLink ex_S ex_T ex_foreign).2).2 ex_T
    = Ok "custom rules".
Proof. by vm_compute. Qed.

(** * Further properties of the engine *)

(** ** Creation only adds *)

Section OnlyAdds.

Implicit Types (s : fs) (m : gmap path node) (p q S T : path).

Lemma adds_dirs_subseteq m m' : adds_dirs m m' → m ⊆ m'.
Proof.
  intros H. apply map_subseteq_spec. intros p x. by apply adds_dirs_some.
Qed.

Lemma walk_subseteq n m m' p q x :
  m ⊆ m' → walk n m p = Some (q, Some x) → walk n m' p = Some (q, Some x).
Proof.
  intros H. revert p; induction n as [|n IH]; intros p; simpl;
    destruct (m !! p) as [[]|] eqn:E; intros Hw; simplify_eq;
    rewrite (lookup_weaken _ _ _ _ E H); eauto.
Qed.

Lemma readFileSync_subseteq s s' p c :
  entries s ⊆ entries s' → readFileSync s p = Ok c → readFileSync s' p = Ok c.
Proof.
  intros H (q & w & W)%readFileSync_ok.
  eapply readFileSync_walk, walk_subseteq; eauto.
Qed.

Lemma fileExists_subseteq s s' p :
  entries s ⊆ entries s' → fileExists s p = true → fileExists s' p = true.
Proof.
  intros H (q & x & W)%fileExists_walk. apply fileExists_walk.
  exists q, x. by eapply walk_subseteq.
Qed.

(** A write to a path that did not resolve, directories added or not,
    creates the file at the end of the chain, where nothing was. *)
Lemma writeFileSync_fresh s s1 s2 T data :
  resolves s T = false → adds_dirs (entries s) (entries s1) →
  writeFileSync s1 T data = Ok s2 →
  ∃ q, walk MAXSYMLINKS (entries s1) T = Some (q, None) ∧
       entries s1 !! q = None ∧
       s2 = with_entries s1 (<[q := File data true true]> (entries s1)).
Proof.
  intros Hr D (q & o & r & W & -> & Ho)%writeFileSync_ok.
  assert (o = None ∧ r = true) as [-> ->].
  { unfold resolves in Hr.
    pose proof (adds_dirs_walk_none MAXSYMLINKS _ _ T D) as Hn.
    rewrite W in Hn. destruct o as [[]|]; try done.
    exfalso. apply Hn. by destruct (walk _ (entries s) T) as [[? []]|]. }
  exists q. split_and!; [done| |done].
  by destruct (walk_end _ _ _ _ _ W) as [<- _].
Qed.

(** The two ways into the creation attempt of [createLink]; the second
    never happens. *)
Lemma createLink_unfold S T s :
  (resolves s T = true ∧ (createLink S T s).2 = s ∧
   (createLink S T s).1.1 = true ∧
   (createLink S T s).1.2 ≠ LinkCreated ∧ (createLink S T s).1.2 ≠ CopyCreated)
  ∨ (resolves s T = false ∧ createLink S T s = createLink_create S T s).
Proof.
  unfold createLink. rewrite fileExists_resolves.
  destruct (resolves s T); [left|by right].
  destruct (isSymlink s T) eqn:Hl.
  - destruct (readlinkSync_of_symlink _ _ Hl) as [t ->]. by case_decide.
  - by destruct (isManagedFile s T).
Qed.

Lemma createLink_create_extends S T s :
  resolves s T = false → entries s ⊆ entries (createLink_create S T s).2.
Proof.
  intros Hr. unfold createLink_create.
  destruct (ensureDir s T) as [s1|e] eqn:D; [|done].
  apply ensureDir_adds_dirs in D as [D _].
  pose proof (adds_dirs_subseteq _ _ D) as Hsub.
  destruct (symlinkSync s1 _ T) as [s2|e] eqn:L.
  - apply symlinkSync_ok in L as [E ->]. simpl.
    etrans; [exact Hsub|]. by apply insert_subseteq.
  - destruct (readFileSync s1 S) as [c|e']; [|done].
    destruct (writeFileSync s1 T _) as [s2|e'] eqn:Wr; [|done].
    destruct (writeFileSync_fresh _ _ _ _ _ Hr D Wr) as (q & _ & E & ->).
    simpl. etrans; [exact Hsub|]. by apply insert_subseteq.
Qed.

Lemma createLink_extends S T s : entries s ⊆ entries (createLink S T s).2.
Proof.
  destruct (createLink_unfold S T s) as [(_ & -> & _)|[Hr ->]]; [done|].
  by apply createLink_create_extends.
Qed.

Lemma run_targets_extends targets : ∀ src cwd s,
  entries s ⊆ entries (run_targets src cwd targets s).2.
Proof.
  induction targets as [|t targets IH]; intros src cwd s; simpl; [done|].
  pose proof (createLink_extends src (join cwd t) s) as H1.
  destruct (createLink src (join cwd t) s) as [[ok l] s1].
  specialize (IH src cwd s1).
  destruct (run_targets src cwd targets s1) as [rs s2]. simpl in *.
  by etrans.
Qed.

Lemma init_source_extends src s s0 :
  init_source src s = Ok s0 → entries s ⊆ entries s0.
Proof.
  unfold init_source. rewrite fileExists_resolves.
  destruct (resolves s src) eqn:Hr; simpl; [by intros [= <-]|].
  intros Wr.
  destruct (writeFileSync_fresh _ _ _ _ _ Hr (adds_dirs_refl _) Wr)
    as (q & _ & E & ->).
  simpl. by apply insert_subseteq.
Qed.

Lemma init_with_state targets cwd s s0 :
  init_source (join cwd SOURCE_FILE) s = Ok s0 →
  (init_with targets cwd s).2
  = (run_targets (join cwd SOURCE_FILE) cwd targets s0).2.
Proof.
  intros Hs. unfold init_with. rewrite Hs, init_loop_run.
  by case_decide.
Qed.

End OnlyAdds.

(** X1.  [createLink] never changes and never removes an entry that
    exists: whatever path had an entry before the call has the same entry
    after it, and whatever could be read before (the source in particular)
    reads the same after it. *)
Theorem createLink_keeps_existing_entries (S T : path) (s : fs) :
  (∀ p x, entries s !! p = Some x →
          entries (createLink S T s).2 !! p = Some x) ∧
  (∀ p c, readFileSync s p = Ok c →
          readFileSync (createLink S T s).2 p = Ok c).
Proof.
  pose proof (createLink_extends S T s) as H. split.
  - intros p x E. by eapply lookup_weaken.
  - intros p c. by apply readFileSync_subseteq.
Qed.

(** X2.  [init] as a whole, for any list of targets and whether or not it
    throws, never changes and never removes an entry that exists: it only
    adds the source (from the template), directories, links and copies at
    paths that had no entry. *)
Theorem init_keeps_existing_entries
    (targets : list path) (cwd : path) (s : fs) :
  ∀ p x, entries s !! p = Some x →
         entries (init_with targets cwd s).2 !! p = Some x.
Proof.
  intros p x E. eapply lookup_weaken; [exact E|].
  destruct (init_source (join cwd SOURCE_FILE) s) as [s0|e] eqn:Hs.
  - rewrite (init_with_state _ _ _ _ Hs).
    etrans; [by eapply init_source_extends|apply run_targets_extends].
  - unfold init_with. by rewrite Hs.
Qed.

(** X3.  "symlink created" is printed only for a target that had no entry,
    and what is then at the target is a link whose text, resolved from the
    directory of the target, is the source path. *)
Theorem createLink_link_created (S T : path) (s s' : fs) (ok : bool) :
  createLink S T s = (ok, LinkCreated, s') →
  ok = true ∧
  entries s !! T = None ∧
  entries s' !! T = Some (Symlink (relative (dirname T) S)) ∧
  resolve (dirname T) (relative (dirname T) S) = S.
Proof.
  intros Hc.
  destruct (createLink_unfold S T s) as [(_ & _ & _ & Hl & _)|[Hr Hcc]].
  { by rewrite Hc in Hl. }
  rewrite Hcc in Hc. unfold createLink_create in Hc.
  destruct (ensureDir s T) as [s1|e] eqn:D; [|done].
  apply ensureDir_adds_dirs in D as [D _].
  destruct (symlinkSync s1 _ T) as [s2|e] eqn:L.
  - injection Hc as <- <-. apply symlinkSync_ok in L as [E ->].
    split_and!; [done| |apply lookup_insert_eq|apply resolve_relative].
    destruct (entries s !! T) as [x|] eqn:ET; [|done].
    by rewrite (adds_dirs_some _ _ _ _ D ET) in E.
  - destruct (readFileSync s1 S); [|done].
    by destruct (writeFileSync s1 T _).
Qed.

Lemma createLink_link_created_witness :
  entries ex_fresh !! ex_T = None ∧
  entries (createLink ex_S ex_T ex_fresh).2 !! ex_T
  = Some (Symlink (relative (dirname ex_T) ex_S)).
Proof.
  destruct (createLink_link_created ex_S ex_T ex_fresh
              (createLink ex_S ex_T ex_fresh).2 true) as (_ & H1 & H2 & _).
  - vm_compute; reflexivity.
  - by split.
Defined.

(** X4.  A [createLink] that returns [false] leaves no link and no file
    behind: the file system differs from the one before the call by new
    directories at most. *)
Theorem createLink_failure_adds_only_directories
    (S T : path) (s s' : fs) (l : line) :
  createLink S T s = (false, l, s') →
  adds_dirs (entries s) (entries s') ∧ symlinks_ok s' = symlinks_ok s.
Proof.
  intros Hc.
  destruct (createLink_unfold S T s) as [(_ & _ & Hok & _)|[Hr Hcc]].
  { by rewrite Hc in Hok. }
  rewrite Hcc in Hc. unfold createLink_create in Hc.
  destruct (ensureDir s T) as [s1|e] eqn:D.
  - apply ensureDir_adds_dirs in D.
    destruct (symlinkSync s1 _ T); [done|].
    destruct (readFileSync s1 S).
    + destruct (writeFileSync s1 T _); [done|]. by injection Hc as _ <-.
    + by injection Hc as _ <-.
  - injection Hc as _ <-. split; [apply adds_dirs_refl|done].
Qed.

Lemma createLink_failure_adds_only_directories_witness :
  adds_dirs (entries ex_nowhere) (entries (createLink ex_S ex_T ex_nowhere).2).
Proof.
  apply (createLink_failure_adds_only_directories ex_S ex_T ex_nowhere
           (createLink ex_S ex_T ex_nowhere).2 (Failed ENOENT)).
  vm_compute; reflexivity.
Defined.

(** ** What success means *)

Section Success.

Implicit Types (s : fs) (m : gmap path node) (p q S T : path).

(** With a source that is an entry of its own, a target for which
    [createLink] returns [true] exists afterwards. *)
Lemma createLink_ok_exists S T s s' x l :
  entries s !! S = Some x → is_symlink_node (Some x) = false →
  createLink S T s = (true, l, s') → fileExists s' T = true.
Proof.
  intros ES Hx Hc.
  destruct (createLink_unfold S T s) as [(Hr & Hs & _)|[Hr Hcc]].
  { rewrite Hc in Hs. simpl in Hs. subst s'. by rewrite fileExists_resolves. }
  pose proof Hc as Hc'. rewrite Hcc in Hc. unfold createLink_create in Hc.
  destruct (ensureDir s T) as [s1|e] eqn:D; [|done].
  apply ensureDir_adds_dirs in D as [D _].
  pose proof (adds_dirs_some _ _ _ _ D ES) as ES1.
  destruct (symlinkSync s1 _ T) as [s2|e] eqn:L.
  - injection Hc as <- <-. apply symlinkSync_ok in L as [E ->].
    assert (S ≠ T) as Hne by (intros ->; congruence).
    apply fileExists_walk. exists S, x. cbn [entries with_entries].
    change MAXSYMLINKS with (Datatypes.S 39).
    erewrite walk_link by apply lookup_insert_eq.
    rewrite resolve_relative, walk_plain;
      by rewrite lookup_insert_ne, ES1 by done.
  - destruct (readFileSync s1 S); [|done].
    destruct (writeFileSync s1 T _); [|done].
    injection Hc as <- <-.
    destruct (createLink_copy_created _ _ _ _ Hc') as (c & q & _ & W & _).
    apply fileExists_walk. eauto.
Qed.

Lemma run_targets_ok_exist targets : ∀ src cwd s x t l,
  entries s !! src = Some x → is_symlink_node (Some x) = false →
  (t, true, l) ∈ (run_targets src cwd targets s).1 →
  fileExists (run_targets src cwd targets s).2 (join cwd t) = true.
Proof.
  induction targets as [|t' targets IH]; intros src cwd s x t l ES Hx; simpl.
  - by intros ?%elem_of_nil.
  - pose proof (createLink_extends src (join cwd t') s) as Hsub.
    destruct (createLink src (join cwd t') s) as [[ok' l'] s1] eqn:C.
    simpl in Hsub. pose proof (lookup_weaken _ _ _ _ ES Hsub) as ES1.
    specialize (IH src cwd s1 x t l ES1 Hx).
    pose proof (run_targets_extends targets src cwd s1) as Hsub2.
    destruct (run_targets src cwd targets s1) as [rs s2]. simpl in *.
    intros [[= -> <- ->]|Hin]%elem_of_cons; [|by apply IH].
    eapply fileExists_subseteq; [exact Hsub2|].
    exact (createLink_ok_exists _ _ _ _ x _ ES Hx C).
Qed.

Lemma mkdirs_makes rest : ∀ m pre pw m',
  m !! pre = Some (Dir pw) → mkdirs m pre pw rest = Ok m' →
  ∃ w, m' !! (pre ++ rest) = Some (Dir w).
Proof.
  induction rest as [|c rest IH]; intros m pre pw m' Hp; simpl.
  - intros [= <-]. rewrite app_nil_r. eauto.
  - replace (pre ++ c :: rest) with ((pre ++ [c]) ++ rest)
      by (by rewrite <- app_assoc).
    destruct (m !! (pre ++ [c])) as [[| |w]|] eqn:E; try done.
    + by apply IH.
    + destruct pw; [|done]. apply IH. apply lookup_insert_eq.
Qed.

End Success.

(** X5.  When the source is an entry of its own (not a link), no target
    lies below a symbolic link, and [init] ends without throwing, every
    target of the list exists afterwards. *)
Theorem init_done_all_targets_exist
    (targets : list path) (cwd : path) (s s' : fs) (x : node)
    (out : list line) :
  entries s !! join cwd SOURCE_FILE = Some x →
  is_symlink_node (Some x) = false →
  targets_below_no_link s cwd targets = true →
  init_with targets cwd s = (Done, out, s') →
  ∀ t, t ∈ targets → fileExists s' (join cwd t) = true.
Proof.
  intros ES Hx _ Hi t Ht.
  assert (init_source (join cwd SOURCE_FILE) s = Ok s) as Hs.
  { unfold init_source. by rewrite (fileExists_plain _ _ _ ES Hx). }
  unfold init_with in Hi. rewrite Hs, init_loop_run in Hi. simpl in Hi.
  pose proof (run_targets_all targets (join cwd SOURCE_FILE) cwd s) as Hall.
  pose proof (λ l, run_targets_ok_exist targets _ cwd s x t l ES Hx) as Hex.
  destruct (run_targets (join cwd SOURCE_FILE) cwd targets s) as [rs s2].
  simpl in *. case_decide as Hf; [done|]. injection Hi as _ <-.
  rewrite <- Hall in Ht.
  apply list_elem_of_fmap in Ht as ([[t' ok] l] & -> & Hin). simpl.
  destruct ok; [by eapply Hex|].
  exfalso. apply Hf.
  assert (failed_targets rs ≠ []) as Hne
    by (apply failed_targets_nonempty; eauto).
  destruct (failed_targets rs); [done|simpl; lia].
Qed.

Lemma init_done_all_targets_exist_witness :
  fileExists (init ex_cwd ex_fresh).2
    (join ex_cwd [".cursor"; "rules"; "AGENTS.md"]) = true.
Proof.
  apply (init_done_all_targets_exist TARGET_FILES ex_cwd ex_fresh
           (init ex_cwd ex_fresh).2 (File "Hello" true true)
           (init ex_cwd ex_fresh).1.2).
  - vm_compute; reflexivity.
  - reflexivity.
  - vm_compute; reflexivity.
  - vm_compute; reflexivity.
  - unfold TARGET_FILES. rewrite !elem_of_cons. auto.
Defined.

(** X6.  "managed copy created" comes with success, and what can then be
    read at the target is the header followed by the content of the source;
    [isManagedFile] recognises it. *)
Theorem createLink_copy_is_managed (S T : path) (s s' : fs) (ok : bool) :
  createLink S T s = (ok, CopyCreated, s') →
  ok = true ∧
  isManagedFile s' T = true ∧
  ∃ sourceContent,
    readFileSync s' S = Ok sourceContent ∧
    readFileSync s' T = Ok (generateManagedHeader +:+ sourceContent).
Proof.
  intros Hc.
  assert (ok = true) as ->.
  { destruct ok; [done|]. apply createLink_failure in Hc as [H _].
    by destruct (H eq_refl) as [e [|]]. }
  destruct (createLink_copy_created _ _ _ _ Hc) as (c & q & R & W & _).
  pose proof (readFileSync_walk _ _ _ _ _ W) as RT.
  split_and!; [done| |eauto].
  unfold isManagedFile. rewrite RT. apply managed_content_has_marker.
Qed.

Lemma createLink_copy_is_managed_witness :
  isManagedFile (createLink ex_S ex_T ex_nosymlink).2 ex_T = true.
Proof.
  destruct (createLink_copy_is_managed ex_S ex_T ex_nosymlink
              (createLink ex_S ex_T ex_nosymlink).2 true) as (_ & H & _).
  - vm_compute; reflexivity.
  - exact H.
Defined.

(** X7.  When the source does not exist and [init] can create it, the
    source reads as the default template afterwards, and the template is
    not taken for a managed copy. *)
Theorem init_source_creates_template (src : path) (s s0 : fs) :
  resolves s src = false →
  init_source src s = Ok s0 →
  readFileSync s0 src = Ok generateDefaultAgentsMd ∧
  isManagedFile s0 src = false.
Proof.
  intros Hr. unfold init_source. rewrite fileExists_resolves, Hr. simpl.
  intros Wr.
  destruct (writeFileSync_fresh _ _ _ _ _ Hr (adds_dirs_refl _) Wr)
    as (q & W & _ & ->).
  assert (readFileSync
            (with_entries s
               (<[q := File generateDefaultAgentsMd true true]> (entries s)))
            src = Ok generateDefaultAgentsMd) as R.
  { eapply readFileSync_walk. cbn [entries with_entries].
    by apply (walk_insert_end _ _ _ _ None). }
  split; [done|]. unfold isManagedFile. rewrite R. by vm_compute.
Qed.

Lemma init_source_creates_template_witness :
  ∃ s0, init_source ex_S ex_nosource = Ok s0 ∧
        readFileSync s0 ex_S = Ok generateDefaultAgentsMd.
Proof.
  eexists. split; [vm_compute; reflexivity|].
  eapply (init_source_creates_template ex_S ex_nosource).
  - vm_compute; reflexivity.
  - vm_compute; reflexivity.
Defined.

(** X8.  [ensureDir] on a path that does not lie below a symbolic link:
    after success the directory of the path exists; when it did not exist
    before the call it is a directory entry now (what exists already is not
    looked at: a file in the place of the directory is accepted), and
    nothing was done to the file system but adding directories. *)
Theorem ensureDir_makes_directory (p : path) (s s1 : fs) :
  links_above s p = false →
  ensureDir s p = Ok s1 →
  fileExists s1 (dirname p) = true ∧
  (fileExists s (dirname p) = false →
   ∃ w, entries s1 !! dirname p = Some (Dir w)) ∧
  (fileExists s (dirname p) = true → s1 = s) ∧
  adds_dirs (entries s) (entries s1).
Proof.
  intros _ D.
  assert (adds_dirs (entries s) (entries s1)) as Ha
    by (by apply ensureDir_adds_dirs in D as [? _]).
  revert D. unfold ensureDir, mkdirSync.
  destruct (fileExists s (dirname p)) eqn:He; simpl.
  - intros [= <-]. by split_and!.
  - destruct (entries s !! []) as [[| |w]|] eqn:Er; try done.
    destruct (mkdirs _ _ _ _) as [m|] eqn:E; [|done].
    intros [= <-].
    destruct (mkdirs_makes _ _ _ _ _ Er E) as [w' Hd]. simpl in Hd.
    split_and!; [by eapply fileExists_plain|eauto|done|done].
Qed.

Lemma ensureDir_makes_directory_witness :
  fileExists ex_fresh [ "w"; ".cursor"; "rules" ] = false ∧
  ∃ s1, ensureDir ex_fresh [ "w"; ".cursor"; "rules"; "AGENTS.md" ] = Ok s1 ∧
        entries s1 !! [ "w"; ".cursor"; "rules" ] = Some (Dir true).
Proof.
  split; [vm_compute; reflexivity|].
  eexists. split; [vm_compute; reflexivity|].
  destruct (ensureDir_makes_directory [ "w"; ".cursor"; "rules"; "AGENTS.md" ]
              ex_fresh (mkFs (<[ ["w"; ".cursor"; "rules"] := Dir true ]>
                                (<[ ["w"; ".cursor"] := Dir true ]> ex_base))
                             true))
    as (_ & H & _).
  - vm_compute; reflexivity.
  - vm_compute; reflexivity.
  - destruct H as [w Hw]; [vm_compute; reflexivity|].
    vm_compute; reflexivity.
Defined.

(** X9.  The status [printTargets] shows depends on the entry at the
    target alone, never on where a link leads: a link is "symlink", a
    readable file with the marker is "managed", any other file or a
    directory is "exists, not managed", no entry is "not created". *)
Theorem targetStatus_by_entry (s : fs) (p : path) :
  targetStatus s p =
  match entries s !! p with
  | Some (Symlink _) => StSymlink
  | Some (File c r _) =>
      if r && includes c MANAGED_MARKER then StManaged else StExistsNotManaged
  | Some (Dir _) => StExistsNotManaged
  | None => StNotCreated
  end.
Proof.
  unfold targetStatus. rewrite isSymlink_entry.
  destruct (entries s !! p) as [[c r w|t|w]|] eqn:E; simpl.
  - rewrite (fileExists_plain _ _ _ E) by done. unfold isManagedFile.
    rewrite (readFileSync_file _ _ _ _ _ E).
    destruct r; simpl; [by destruct (includes c MANAGED_MARKER)|done].
  - done.
  - rewrite (fileExists_plain _ _ _ E) by done. unfold isManagedFile.
    by rewrite (readFileSync_dir _ _ _ E).
  - by rewrite (fileExists_absent _ _ E).
Qed.

(** X10.  [createLink] does not compare a managed copy with the source: a
    readable file with the marker at the target is reported as "managed
    copy already exists" and left as it is, whatever the source contains
    and whether or not there is a source. *)
Theorem createLink_leaves_managed_copy (S T : path) (s : fs) (c : string) (w : bool) :
  entries s !! T = Some (File c true w) →
  includes c MANAGED_MARKER = true →
  createLink S T s = (true, CopyExists, s).
Proof.
  intros E Hm. unfold createLink.
  rewrite (fileExists_plain _ _ _ E), isSymlink_entry, E by done.
  unfold isManagedFile. by rewrite (readFileSync_file _ _ _ _ _ E), Hm.
Qed.

Lemma createLink_leaves_managed_copy_witness :
  readFileSync ex_stale ex_S = Ok "Hello" ∧
  createLink ex_S ex_T ex_stale = (true, CopyExists, ex_stale).
Proof.
  split; [vm_compute; reflexivity|].
  apply (createLink_leaves_managed_copy ex_S ex_T ex_stale
           (generateManagedHeader +:+ "Old") true).
  - vm_compute; reflexivity.
  - vm_compute; reflexivity.
Defined.

(** ** Synchronising *)

Section Sync.

Implicit Types (s : fs) (m : gmap path node) (p q S T : path).

(** What is known of a target that [updateManagedCopy] and [removeLink]
    take for an existing file that is not a link. *)
Lemma plain_target s T :
  fileExists s T = true → isSymlink s T = false →
  ∃ x, entries s !! T = Some x ∧ is_symlink_node (Some x) = false.
Proof.
  rewrite isSymlink_entry. intros (q & x & W)%fileExists_walk Hl.
  rewrite walk_plain in W by done. injection W as _ E.
  rewrite E in Hl. eauto.
Qed.

Lemma managed_target s T x :
  entries s !! T = Some x → is_symlink_node (Some x) = false →
  isManagedFile s T = true →
  ∃ c w, x = File c true w ∧ includes c MANAGED_MARKER = true.
Proof.
  intros E Hx. unfold isManagedFile.
  destruct x as [c r w| |w]; [|done|].
  - rewrite (readFileSync_file _ _ _ _ _ E). destruct r; [eauto|done].
  - by rewrite (readFileSync_dir _ _ _ E).
Qed.

Lemma updateManagedCopy_managed S T s c0 w :
  entries s !! T = Some (File c0 true w) →
  includes c0 MANAGED_MARKER = true →
  updateManagedCopy S T s =
  match readFileSync s S with
  | Err e => (Failed e, s)
  | Ok sourceContent =>
      if w
      then (Synced,
            with_entries s
              (<[T := File (generateManagedHeader +:+ sourceContent) true true]>
                 (entries s)))
      else (Failed EACCES, s)
  end.
Proof.
  intros E Hm. unfold updateManagedCopy.
  rewrite (fileExists_plain _ _ _ E), isSymlink_entry, E by done.
  unfold isManagedFile. rewrite (readFileSync_file _ _ _ _ _ E), Hm.
  cbn [negb is_symlink_node].
  destruct (readFileSync s S) as [c|e]; [|done].
  unfold writeFileSync. rewrite walk_plain, E by (by rewrite E).
  by destruct w.
Qed.

Lemma rewrites_marked_refl ts m : rewrites_marked ts m m.
Proof. intros p. by left. Qed.

Lemma rewrites_marked_trans ts m1 m2 m3 :
  rewrites_marked ts m1 m2 → rewrites_marked ts m2 m3 →
  rewrites_marked ts m1 m3.
Proof.
  intros H12 H23 p.
  destruct (H12 p) as [E|(Hp & c & c' & w & E1 & M1 & E2 & M2)],
           (H23 p) as [F|(Hp' & d & d' & v & F1 & N1 & F2 & N2)].
  - left. congruence.
  - right. split; [done|]. exists d, d', v. rewrite <- E. by split_and!.
  - right. split; [done|]. exists c, c', w. split_and!; congruence.
  - right. split; [done|]. rewrite E2 in F1. injection F1 as <- <-.
    exists c, d', w. by split_and!.
Qed.

Lemma rewrites_marked_mono ts ts' m m' :
  ts ⊆ ts' → rewrites_marked ts m m' → rewrites_marked ts' m m'.
Proof.
  intros Hs H p. destruct (H p) as [E|(Hp & Hr)]; [by left|right].
  split; [by apply Hs|done].
Qed.

Lemma updateManagedCopy_rewrites_marked S T s :
  rewrites_marked [T] (entries s) (entries (updateManagedCopy S T s).2).
Proof.
  unfold updateManagedCopy.
  destruct (fileExists s T) eqn:He; simpl; [|apply rewrites_marked_refl].
  destruct (isSymlink s T) eqn:Hl; simpl; [apply rewrites_marked_refl|].
  destruct (isManagedFile s T) eqn:Hm; simpl; [|apply rewrites_marked_refl].
  destruct (readFileSync s S) as [c|e]; [|apply rewrites_marked_refl].
  destruct (plain_target _ _ He Hl) as (x & E & Hx).
  destruct (managed_target _ _ _ E Hx Hm) as (c0 & w & -> & Hc0).
  unfold writeFileSync. rewrite walk_plain, E by (by rewrite E).
  destruct w; [|apply rewrites_marked_refl]. simpl.
  intros p. destruct (decide (p = T)) as [->|Hne].
  - right. split; [apply list_elem_of_singleton; done|].
    exists c0, (generateManagedHeader +:+ c), true.
    split_and!; [done|done|apply lookup_insert_eq|
                 apply managed_content_has_marker].
  - left. by apply lookup_insert_ne.
Qed.

Lemma sync_loop_rewrites_marked targets : ∀ src cwd out s,
  rewrites_marked (map (join cwd) targets) (entries s)
                  (entries (sync_loop src cwd targets out s).2).
Proof.
  induction targets as [|t targets IH]; intros src cwd out s; simpl.
  - apply rewrites_marked_refl.
  - pose proof (updateManagedCopy_rewrites_marked src (join cwd t) s) as H1.
    destruct (updateManagedCopy src (join cwd t) s) as [l s1]. simpl in H1.
    eapply rewrites_marked_trans.
    + eapply rewrites_marked_mono; [|exact H1].
      intros p ->%list_elem_of_singleton. apply elem_of_cons. by left.
    + eapply rewrites_marked_mono; [|apply IH].
      intros p Hp. apply elem_of_cons. by right.
Qed.

End Sync.

(** X11.  [updateManagedCopy] on a managed copy (a readable file with the
    marker): when the source cannot be read the error is printed and
    nothing changes; when the copy cannot be written "failed: EACCES" is
    printed and nothing changes; otherwise "synced" is printed, the copy
    becomes the header followed by the content of the source, and every
    other entry is as before. *)
Theorem updateManagedCopy_on_managed_copy
    (S T : path) (s : fs) (c0 : string) (w : bool) :
  entries s !! T = Some (File c0 true w) →
  includes c0 MANAGED_MARKER = true →
  (∀ e, readFileSync s S = Err e → updateManagedCopy S T s = (Failed e, s)) ∧
  (∀ c, readFileSync s S = Ok c → w = false →
        updateManagedCopy S T s = (Failed EACCES, s)) ∧
  (∀ c, readFileSync s S = Ok c → w = true →
        (updateManagedCopy S T s).1 = Synced ∧
        entries (updateManagedCopy S T s).2 !! T
        = Some (File (generateManagedHeader +:+ c) true true) ∧
        ∀ p, p ≠ T →
             entries (updateManagedCopy S T s).2 !! p = entries s !! p).
Proof.
  intros E Hm. rewrite (updateManagedCopy_managed S T s c0 w E Hm).
  split_and!.
  - by intros e ->.
  - by intros c -> ->.
  - intros c -> ->. simpl. split_and!; [done|apply lookup_insert_eq|].
    intros p Hp. by apply lookup_insert_ne.
Qed.

Lemma updateManagedCopy_on_managed_copy_witness :
  (updateManagedCopy ex_S ex_T ex_stale).1 = Synced ∧
  entries (updateManagedCopy ex_S ex_T ex_stale).2 !! ex_T
  = Some (File (generateManagedHeader +:+ "Hello") true true).
Proof.
  destruct (updateManagedCopy_on_managed_copy ex_S ex_T ex_stale
              (generateManagedHeader +:+ "Old") true) as (_ & _ & H).
  - vm_compute; reflexivity.
  - vm_compute; reflexivity.
  - destruct (H "Hello") as (H1 & H2 & _).
    + vm_compute; reflexivity.
    + reflexivity.
    + by split.
Defined.

(** X12.  [sync], for any list of targets none of which lies below a
    symbolic link, creates nothing and removes nothing: every entry is as
    before, except that readable files with the marker at target paths may
    have a new content, which again has the marker, under the same
    permissions. *)
Theorem sync_rewrites_only_managed_copies
    (targets : list path) (cwd : path) (s : fs) :
  targets_below_no_link s cwd targets = true →
  rewrites_marked (map (join cwd) targets)
    (entries s) (entries (sync_with targets cwd s).2).
Proof.
  intros _. unfold sync_with.
  destruct (fileExists s (join cwd SOURCE_FILE)); simpl;
    [|apply rewrites_marked_refl].
  pose proof (sync_loop_rewrites_marked targets (join cwd SOURCE_FILE) cwd [] s).
  by destruct (sync_loop _ _ _ _ _).
Qed.

Lemma sync_rewrites_only_managed_copies_witness :
  rewrites_marked (map (join ex_cwd) TARGET_FILES)
    (entries ex_stale) (entries (sync ex_cwd ex_stale).2) ∧
  entries (sync ex_cwd ex_stale).2 !! ex_T
  = Some (File (generateManagedHeader +:+ "Hello") true true).
Proof.
  split; [|vm_compute; reflexivity].
  apply (sync_rewrites_only_managed_copies TARGET_FILES ex_cwd ex_stale).
  vm_compute; reflexivity.
Defined.

(** X13.  With a source that is an entry of its own and is not the
    target, [updateManagedCopy] is idempotent: run again on the file system
    it produced, it prints the same line and changes nothing. *)
Theorem updateManagedCopy_idempotent (S T : path) (s : fs) (x : node) :
  S ≠ T →
  entries s !! S = Some x → is_symlink_node (Some x) = false →
  updateManagedCopy S T (updateManagedCopy S T s).2
  = updateManagedCopy S T s.
Proof.
  intros Hne ES Hx.
  destruct (fileExists s T) eqn:He;
    [|by unfold updateManagedCopy; rewrite He; simpl; rewrite He].
  destruct (isSymlink s T) eqn:Hl;
    [by unfold updateManagedCopy; rewrite He, Hl; simpl; rewrite He, Hl|].
  destruct (isManagedFile s T) eqn:Hm;
    [|by unfold updateManagedCopy; rewrite He, Hl, Hm; simpl;
         rewrite He, Hl, Hm].
  destruct (plain_target _ _ He Hl) as (y & E & Hy).
  destruct (managed_target _ _ _ E Hy Hm) as (c0 & w & -> & Hc0).
  rewrite (updateManagedCopy_managed S T s c0 w E Hc0).
  destruct (readFileSync s S) as [c|e] eqn:R;
    [|by simpl; rewrite (updateManagedCopy_managed S T s c0 w E Hc0), R].
  destruct w;
    [|by simpl; rewrite (updateManagedCopy_managed S T s c0 false E Hc0), R].
  cbn [snd]. set (s1 := with_entries s _).
  assert (entries s1 !! T
          = Some (File (generateManagedHeader +:+ c) true true)) as E1
    by apply lookup_insert_eq.
  assert (readFileSync s1 S = Ok c) as R1.
  { revert R. unfold readFileSync.
    rewrite !walk_plain; unfold s1; cbn [entries with_entries];
      rewrite ?lookup_insert_ne by done; by rewrite ?ES. }
  rewrite (updateManagedCopy_managed S T s1 _ true E1
             (managed_content_has_marker c)), R1.
  unfold s1, with_entries. simpl. by rewrite insert_insert_eq.
Qed.

Lemma updateManagedCopy_idempotent_witness :
  (updateManagedCopy ex_S ex_T ex_stale).1 = Synced ∧
  updateManagedCopy ex_S ex_T (updateManagedCopy ex_S ex_T ex_stale).2
  = updateManagedCopy ex_S ex_T ex_stale.
Proof.
  split; [vm_compute; reflexivity|].
  apply (updateManagedCopy_idempotent ex_S ex_T ex_stale
           (File "Hello" true true)).
  - discriminate.
  - vm_compute; reflexivity.
  - reflexivity.
Defined.

(** ** Removing *)

Section Remove.

Implicit Types (s : fs) (m : gmap path node) (p q S T : path).

Lemma unlinkSync_ok s p s' :
  unlinkSync s p = Ok s' →
  s' = with_entries s (delete p (entries s)) ∧ parent_check s p = Ok tt.
Proof.
  unfold unlinkSync.
  destruct (entries s !! p) as [[]|]; try done;
    by destruct (parent_check s p) as [[]|]; intros [= <-].
Qed.

Lemma removes_owned_refl ts m : removes_owned ts m m.
Proof. intros p. by left. Qed.

Lemma removes_owned_trans ts m1 m2 m3 :
  removes_owned ts m1 m2 → removes_owned ts m2 m3 → removes_owned ts m1 m3.
Proof.
  intros H12 H23 p.
  destruct (H12 p) as [E|(Hp & E & Ho)], (H23 p) as [F|(Hp' & F & Ho')].
  - left. congruence.
  - right. rewrite <- E. by split_and!.
  - right. split_and!; [done|congruence|done].
  - right. by split_and!.
Qed.

Lemma removes_owned_mono ts ts' m m' :
  ts ⊆ ts' → removes_owned ts m m' → removes_owned ts' m m'.
Proof.
  intros Hs H p. destruct (H p) as [E|(Hp & Hr)]; [by left|right].
  split; [by apply Hs|done].
Qed.

Lemma removeLink_removes_owned T s :
  removes_owned [T] (entries s) (entries (removeLink T s).2).
Proof.
  unfold removeLink.
  destruct (fileExists s T) eqn:He; simpl; [|apply removes_owned_refl].
  destruct (isSymlink s T) eqn:Hl.
  - destruct (unlinkSync s T) as [s'|e] eqn:U; [|apply removes_owned_refl].
    apply unlinkSync_ok in U as [-> _]. simpl.
    intros p. destruct (decide (p = T)) as [->|Hne].
    + right. rewrite isSymlink_entry in Hl.
      split_and!; [by apply list_elem_of_singleton|apply lookup_delete_eq|by left].
    + left. by apply lookup_delete_ne.
  - destruct (isManagedFile s T) eqn:Hm; [|apply removes_owned_refl].
    destruct (unlinkSync s T) as [s'|e] eqn:U; [|apply removes_owned_refl].
    apply unlinkSync_ok in U as [-> _]. simpl.
    destruct (plain_target _ _ He Hl) as (x & E & Hx).
    destruct (managed_target _ _ _ E Hx Hm) as (c0 & w & -> & Hc0).
    intros p. destruct (decide (p = T)) as [->|Hne].
    + right. split_and!; [by apply list_elem_of_singleton|apply lookup_delete_eq|].
      right. by exists c0, w.
    + left. by apply lookup_delete_ne.
Qed.

Lemma clean_loop_removes_owned targets : ∀ cwd out s,
  removes_owned (map (join cwd) targets) (entries s)
                (entries (clean_loop cwd targets out s).2).
Proof.
  induction targets as [|t targets IH]; intros cwd out s; simpl.
  - apply removes_owned_refl.
  - pose proof (removeLink_removes_owned (join cwd t) s) as H1.
    destruct (removeLink (join cwd t) s) as [l s1]. simpl in H1.
    eapply removes_owned_trans.
    + eapply removes_owned_mono; [|exact H1].
      intros p ->%list_elem_of_singleton. apply elem_of_cons. by left.
    + eapply removes_owned_mono; [|apply IH].
      intros p Hp. apply elem_of_cons. by right.
Qed.

End Remove.

(** X14.  Where no target lies below a symbolic link, [clean] changes the
    file system by removals only, and only of what the engine owns: every
    entry is as before, except that symbolic links and readable files with
    the marker at the paths of [TARGET_FILES] may be gone.  A file without
    the marker, a file that cannot be read, a directory, and anything at
    another path stay. *)
Theorem clean_removes_only_owned (cwd : path) (s : fs) :
  targets_below_no_link s cwd TARGET_FILES = true →
  removes_owned (map (join cwd) TARGET_FILES)
    (entries s) (entries (clean cwd s).2).
Proof.
  intros _. unfold clean.
  pose proof (clean_loop_removes_owned TARGET_FILES cwd [] s).
  by destruct (clean_loop _ _ _ _).
Qed.

Lemma clean_removes_only_owned_witness :
  removes_owned (map (join ex_cwd) TARGET_FILES)
    (entries ex_stale) (entries (clean ex_cwd ex_stale).2) ∧
  entries (clean ex_cwd ex_stale).2 !! ex_T = None ∧
  entries (clean ex_cwd ex_stale).2 !! ex_S = Some (File "Hello" true true).
Proof.
  split; [|split; vm_compute; reflexivity].
  apply (clean_removes_only_owned ex_cwd ex_stale).
  vm_compute; reflexivity.
Defined.

(** X15.  [removeLink] on a managed copy (a readable file with the
    marker): the file is deleted and "managed copy removed" printed, every
    other entry staying as it is; when [unlinkSync] throws, the error is
    printed and nothing changes. *)
Theorem removeLink_managed_copy (T : path) (s : fs) (c : string) (w : bool) :
  entries s !! T = Some (File c true w) →
  includes c MANAGED_MARKER = true →
  match unlinkSync s T with
  | Ok s' =>
      removeLink T s = (CopyRemoved, s') ∧
      entries s' !! T = None ∧
      ∀ p, p ≠ T → entries s' !! p = entries s !! p
  | Err e => removeLink T s = (Failed e, s)
  end.
Proof.
  intros E Hm. unfold removeLink.
  rewrite (fileExists_plain _ _ _ E), isSymlink_entry, E by done.
  unfold isManagedFile. rewrite (readFileSync_file _ _ _ _ _ E), Hm.
  cbn [negb is_symlink_node].
  destruct (unlinkSync s T) as [s'|e] eqn:U; [|done].
  apply unlinkSync_ok in U as [-> _]. simpl. split_and!; [done|..].
  - apply lookup_delete_eq.
  - intros p Hp. by apply lookup_delete_ne.
Qed.

Lemma removeLink_managed_copy_witness :
  (removeLink ex_T ex_stale).1 = CopyRemoved ∧
  entries (removeLink ex_T ex_stale).2 !! ex_T = None.
Proof.
  pose proof (removeLink_managed_copy ex_T ex_stale
                (generateManagedHeader +:+ "Old") true) as H.
  assert (unlinkSync ex_stale ex_T = Ok (removeLink ex_T ex_stale).2) as U
    by (vm_compute; reflexivity).
  rewrite U in H. destruct H as (H1 & H2 & _).
  - vm_compute; reflexivity.
  - vm_compute; reflexivity.
  - split; [by rewrite H1|exact H2].
Defined.

(** ** Creating, then removing *)

Section Undo.

Implicit Types (s : fs) (m : gmap path node) (p q S T : path).



End Undo.



(** ** Witnesses for the general statements on fresh and broken targets *)


Lemma removeLink_live_symlink_witness :
  removeLink ex_T ex_elsewhere = (LinkRemoved, (removeLink ex_T ex_elsewhere).2) ∧
  entries (removeLink ex_T ex_elsewhere).2 !! ex_T = None ∧
  entries (removeLink ex_T ex_elsewhere).2 !! [ "w"; "notes.md" ]
  = entries ex_elsewhere !! [ "w"; "notes.md" ].
Proof.
  pose proof (removeLink_live_symlink ex_T ex_elsewhere
                (LinkText false [Down "notes.md"])) as H.
  assert (unlinkSync ex_elsewhere ex_T = Ok (removeLink ex_T ex_elsewhere).2)
    as U by (vm_compute; reflexivity).
  rewrite U in H. destruct H as (H1 & H2 & H3).
  - vm_compute; reflexivity.
  - vm_compute; reflexivity.
  - vm_compute; reflexivity.
  - split_and!; [exact H1|exact H2|apply H3; discriminate].
Defined.

Lemma createLink_keeps_dangling_link_witness :
  (createLink ex_S ex_T ex_dangling).1.2 ≠ LinkCreated ∧
  entries (createLink ex_S ex_T ex_dangling).2 !! ex_T
  = Some (Symlink ex_gone_text).
Proof.
  apply (createLink_keeps_dangling_link ex_S ex_T ex_dangling ex_gone_text).
  - vm_compute; reflexivity.
  - vm_compute; reflexivity.
Defined.

Lemma dangling_seen_as_absent_witness :
  updateManagedCopy ex_S ex_T ex_dangling = (DoesNotExist, ex_dangling) ∧
  removeLink ex_T ex_dangling = (DoesNotExist, ex_dangling) ∧
  createLink ex_S ex_T ex_dangling = createLink_create ex_S ex_T ex_dangling.
Proof.
  apply (dangling_seen_as_absent ex_S ex_T ex_dangling).
  split; vm_compute; reflexivity.
Defined.

(** ** The marker test *)

Section Marker.

Implicit Types (s m a b : string).

Lemma append_cons (x : Ascii.ascii) a b :
  String x a +:+ b = String x (a +:+ b).
Proof. reflexivity. Qed.

Lemma starts_with_iff s m : starts_with s m = true ↔ ∃ b, s = m +:+ b.
Proof.
  revert s; induction m as [|x m IH]; intros s.
  - split; [intros _; by exists s|done].
  - destruct s as [|y s].
    + split; [done|]. by intros (b & ?).
    + change (starts_with (String y s) (String x m))
        with (if decide (x = y) then starts_with s m else false).
      destruct (decide (x = y)) as [->|Hne].
      * rewrite IH. split; intros (b & Hb); exists b;
          rewrite append_cons in *; congruence.
      * split; [done|]. intros (b & Hb). rewrite append_cons in Hb.
        congruence.
Qed.

Lemma includes_iff s m : includes s m = true ↔ ∃ a b, s = a +:+ m +:+ b.
Proof.
  induction s as [|y s IH].
  - change (includes "" m) with (starts_with "" m || false).
    rewrite orb_false_r, starts_with_iff. split.
    + intros (b & Hb). by exists "", b.
    + intros (a & b & Hab). destruct a; [by exists b|done].
  - change (includes (String y s) m)
      with (starts_with (String y s) m || includes s m).
    rewrite orb_true_iff, starts_with_iff, IH. split.
    + intros [(b & Hb)|(a & b & Hab)].
      * by exists "", b.
      * exists (String y a), b. by rewrite append_cons, Hab.
    + intros (a & b & Hab). destruct a as [|z a].
      * left. by exists b.
      * right. exists a, b. rewrite append_cons in Hab. congruence.
Qed.

End Marker.

(** X17.  [isManagedFile] answers yes exactly when the path can be read
    (links followed) and the marker occurs somewhere in what is read: at
    the start, as [generateManagedHeader] puts it, or anywhere else. *)
Theorem isManagedFile_iff (s : fs) (p : path) :
  isManagedFile s p = true ↔
  ∃ before after,
    readFileSync s p = Ok (before +:+ MANAGED_MARKER +:+ after).
Proof.
  unfold isManagedFile. destruct (readFileSync s p) as [c|e].
  - rewrite includes_iff. split; intros (a & b & H); exists a, b; congruence.
  - split; [done|]. by intros (a & b & H).
Qed.

(** ** Witnesses for the statements on existing entries *)

Lemma createLink_keeps_existing_entries_witness :
  entries (createLink ex_S ex_T ex_dangling).2 !! ex_S
  = Some (File "Hello" true true).
Proof.
  apply (proj1 (createLink_keeps_existing_entries ex_S ex_T ex_dangling)).
  vm_compute; reflexivity.
Defined.

Lemma init_keeps_existing_entries_witness :
  entries (init ex_cwd ex_foreign).2 !! ex_T
  = Some (File "custom rules" true true).
Proof.
  apply (init_keeps_existing_entries TARGET_FILES ex_cwd ex_foreign).
  vm_compute; reflexivity.
Defined.

(** ** Round trip with a source that changes *)

(** C6.  On the broken link [/w/CLAUDE.md -> ../shared/gone.md] the round
    trip fails: [createLink] prints "managed copy created" (the copy is
    written through the link), the source is then changed to [World], and
    [updateManagedCopy] prints "symlink, no sync needed" and changes
    nothing, so that reading the target still gives the header followed by
    [Hello] while the source reads [World]. *)
Theorem copy_through_broken_link_not_synced :
  createLink ex_S ex_T ex_dangling = (true, CopyCreated, ex_dangling_copied) ∧
  writeFileSync ex_dangling_copied ex_S "World" = Ok ex_dangling_edited ∧
  updateManagedCopy ex_S ex_T ex_dangling_edited
  = (LinkNoSync, ex_dangling_edited) ∧
  readFileSync ex_dangling_edited ex_S = Ok "World" ∧
  readFileSync ex_dangling_edited ex_T = Ok (generateManagedHeader +:+ "Hello") ∧
  strip_header (generateManagedHeader +:+ "Hello") ≠ "World".
Proof.
  split_and!; try (vm_compute; reflexivity).
  vm_compute. discriminate.
Qed.

(** X23.  Where the target had no entry (and does not lie below a
    symbolic link), the round trip holds, whatever happens
    to the source (or to anything but the target) between the two calls:
    after "managed copy created", [updateManagedCopy] run in a state where
    the target is as [createLink] left it and the source reads
    [sourceContent] prints "synced" and makes the target the header
    followed by [sourceContent]. *)
Lemma copy_then_sync_fresh
    (S T : path) (s s1 s1' : fs) (sourceContent : string) :
  entries s !! T = None →
  links_above s T = false →
  createLink S T s = (true, CopyCreated, s1) →
  entries s1' !! T = entries s1 !! T →
  readFileSync s1' S = Ok sourceContent →
  (updateManagedCopy S T s1').1 = Synced ∧
  entries (updateManagedCopy S T s1').2 !! T
  = Some (File (generateManagedHeader +:+ sourceContent) true true) ∧
  includes (generateManagedHeader +:+ sourceContent) MANAGED_MARKER = true ∧
  strip_header (generateManagedHeader +:+ sourceContent) = sourceContent.
Proof.
  intros ET _ Hc ET' R.
  assert (∃ c, entries s1 !! T
               = Some (File (generateManagedHeader +:+ c) true true))
    as [c E1].
  { destruct (createLink_copy_created _ _ _ _ Hc) as (c & q & _ & W & Hq).
    exists c. destruct Hq as [-> | Hl].
    - by destruct (walk_end _ _ _ _ _ W) as [<- _].
    - exfalso. revert Hc Hl. unfold createLink.
      rewrite (fileExists_absent _ _ ET). unfold createLink_create.
      destruct (ensureDir s T) as [s0|e] eqn:D; [|done].
      apply ensureDir_adds_dirs in D as [D _].
      destruct (symlinkSync s0 _ T); [done|].
      destruct (readFileSync s0 S); [|done].
      destruct (writeFileSync s0 T _) as [s2|] eqn:Wr; [|done].
      intros [= <-]. apply writeFileSync_ok in Wr as (q' & o & r & W' & -> & _).
      cbn [entries with_entries].
      destruct (D T) as [E0|[_ [w E0]]]; rewrite ?ET in E0;
        rewrite walk_plain in W' by (by rewrite E0); injection W' as <- _;
        by rewrite lookup_insert_eq. }
  rewrite <- ET' in E1.
  rewrite (updateManagedCopy_managed S T s1' _ true E1
             (managed_content_has_marker c)), R.
  split_and!; [done|apply lookup_insert_eq|
               apply managed_content_has_marker|apply slice_app].
Qed.

Lemma copy_then_sync_fresh_witness :
  (updateManagedCopy ex_S ex_T ex_stale).1 = Synced ∧
  entries (updateManagedCopy ex_S ex_T ex_stale).2 !! ex_T
  = Some (File (generateManagedHeader +:+ "Hello") true true).
Proof.
  destruct (copy_then_sync_fresh ex_S ex_T
              (mkFs (<[ ex_S := File "Old" true true ]> ex_empty) false)
              (createLink ex_S ex_T
                 (mkFs (<[ ex_S := File "Old" true true ]> ex_empty) false)).2
              ex_stale "Hello") as (H1 & H2 & _).
  - vm_compute; reflexivity.
  - vm_compute; reflexivity.
  - vm_compute; reflexivity.
  - vm_compute; reflexivity.
  - vm_compute; reflexivity.
  - by split.
Defined.
